(** * twitter-streamer: a shallow embedding of [streamer/streamer.py]

    The development follows the layout of the Python module: string helpers,
    the location macro table, command-line value parsers, the stream
    listener (recognizer chain, handlers, stop policy) and the session loop
    of [process_tweets].  Python exceptions are values of [exn]; stateful
    code runs in a state-and-exception monad over the [World]. *)

From Stdlib Require Import Ascii String ZArith QArith Lia.
From stdpp Require Import base strings list gmap option.

Set Warnings "-register-all".

Open Scope string_scope.
Open Scope list_scope.
Open Scope Z_scope.

(** ** Python exceptions and results *)

Inductive exn : Type :=
  | ArgumentTypeError (msg : string)
  | JSONDecodeError
  | AttributeError
  | KeyError
  | TypeError (msg : string)
  | NameError (name : string)
  | ValueError (msg : string)
  | UnicodeEncodeError
  | IOError
  | KeyboardInterrupt
  | OtherException (cls : string).

Inductive res (A : Type) : Type :=
  | Ok (a : A)
  | Raise (e : exn).

Arguments Ok {A} a.
Arguments Raise {A} e.

(** ** Strings as Python 2 byte strings *)

Module PyStr.

(** The double quote character, chr(34). *)
Definition dq : string := String (ascii_of_nat 34) EmptyString.

(** [string.whitespace]: space, tab, newline, vertical tab, form feed,
    carriage return. *)
Definition is_space (c : ascii) : bool :=
  let n := nat_of_ascii c in
  Nat.eqb n 32 || (Nat.leb 9 n && Nat.leb n 13).

Definition is_digit (c : ascii) : bool :=
  let n := nat_of_ascii c in
  Nat.leb 48 n && Nat.leb n 57.

Definition lower_char (c : ascii) : ascii :=
  let n := nat_of_ascii c in
  if Nat.leb 65 n && Nat.leb n 90 then ascii_of_nat (n + 32) else c.

(** [s.lower()] *)
Fixpoint lower (s : string) : string :=
  match s with
  | EmptyString => EmptyString
  | String c r => String (lower_char c) (lower r)
  end.

Fixpoint lstrip (s : string) : string :=
  match s with
  | EmptyString => EmptyString
  | String c r => if is_space c then lstrip r else s
  end.

Fixpoint rstrip (s : string) : string :=
  match s with
  | EmptyString => EmptyString
  | String c r =>
      match rstrip r with
      | EmptyString => if is_space c then EmptyString else String c EmptyString
      | r' => String c r'
      end
  end.

(** [s.strip()] *)
Definition strip (s : string) : string := rstrip (lstrip s).

(** [s.startswith(p)] *)
Fixpoint startswith (p s : string) : bool :=
  match p, s with
  | EmptyString, _ => true
  | String a p', String b s' => if Ascii.eqb a b then startswith p' s' else false
  | String _ _, EmptyString => false
  end.

(** [p in s] for strings: substring containment. *)
Fixpoint contains (p s : string) : bool :=
  startswith p s ||
  match s with
  | EmptyString => false
  | String _ s' => contains p s'
  end.

(** The longest prefix of characters satisfying [f], and the rest. *)
Fixpoint span (f : ascii -> bool) (s : string) : string * string :=
  match s with
  | EmptyString => (EmptyString, EmptyString)
  | String c r =>
      if f c then let '(a, b) := span f r in (String c a, b)
      else (EmptyString, s)
  end.

(** [s.split(sep)] for a one-character separator; never the empty list. *)
Fixpoint split (sep : ascii) (s : string) : list string :=
  match s with
  | EmptyString => [EmptyString]
  | String c r =>
      if Ascii.eqb c sep then EmptyString :: split sep r
      else match split sep r with
           | [] => [String c EmptyString]
           | w :: ws => String c w :: ws
           end
  end.

(** [s.replace(' ', '')]-style removal of one character. *)
Fixpoint remove_char (x : ascii) (s : string) : string :=
  match s with
  | EmptyString => EmptyString
  | String c r => if Ascii.eqb c x then remove_char x r else String c (remove_char x r)
  end.

(** [int(s)] on a string of decimal digits. *)
Definition int_of_digits (s : string) : Z :=
  fold_left (fun acc c => 10 * acc + (Z.of_nat (nat_of_ascii c) - 48))
            (list_ascii_of_string s) 0.

Definition is_empty (s : string) : bool :=
  match s with EmptyString => true | _ => false end.

(** First character as a one-character string: [s[0]]. *)
Definition head1 (s : string) : option string :=
  match s with
  | EmptyString => None
  | String c _ => Some (String c EmptyString)
  end.

End PyStr.

(** ** Location macros (lines 25-43) *)

(** A table entry is either a bounding box or the name of another entry. *)
Inductive macro : Type :=
  | Box (coords : list Q)
  | Alias (name : string).

Definition LOCATION_QUERY_MACROS : gmap string macro :=
  <["any" := Box [(-180)%Q; (-90)%Q; 180%Q; 90%Q]]>
  (<["all" := Alias "any"]>
  (<["global" := Alias "any"]>
  (<["usa" := Box [(-124.848974)%Q; 24.396308%Q; (-66.885444)%Q; 49.384358%Q]]>
  (<["contintental_usa" := Alias "usa"]> ∅)))).

(** Outcome of a recursive lookup run with a bounded number of calls: the
    Python function has no bound of its own, so [OutOfFuel] stands for
    "still recursing after [fuel] calls".  What the interpreter does with a
    recursion that goes on, ending it at its recursion limit, is not part
    of the outcome. *)
Inductive lookup_result : Type :=
  | Returned (r : option (list Q))
  | OutOfFuel.

(** [lookup_location_query_macro(name)] against a table; each call looks up
    [name.lower()], and recurses when the entry is a string. *)
Fixpoint lookup_macro_in (table : gmap string macro) (fuel : nat) (name : string)
  : lookup_result :=
  match fuel with
  | O => OutOfFuel
  | S fuel' =>
      match table !! PyStr.lower name with
      | Some (Alias resolved) => lookup_macro_in table fuel' resolved
      | Some (Box coords) => Returned (Some coords)
      | None => Returned None
      end
  end.

Definition lookup_location_query_macro (fuel : nat) (name : string) : lookup_result :=
  lookup_macro_in LOCATION_QUERY_MACROS fuel name.

(** ** Command-line value parsers (lines 46-85) *)

(** [csv_args(value)]: [map(str, value.split(","))]. *)
Definition csv_args (value : string) : list string :=
  PyStr.split "," value.

(** [locations_type(value)] (lines 53-59): the outcome, and the lists that
    the [print] statement ahead of the [return] writes to standard output. *)
Definition locations_type (value : string) : res (list string) * list (list string) :=
  let parsed := csv_args value in
  if negb (Nat.eqb (Nat.modulo (length parsed) 4) 0) then
    (Raise (ArgumentTypeError
       "must contain a multiple of four floating-point numbers defining the locations to include."),
     [])
  else (Ok parsed, [parsed]).

(** The [secs] dictionary of [duration_type]. *)
Definition secs : gmap string Z :=
  <[" " := 1]> (<["s" := 1]> (<["m" := 60]> (<["h" := 3600]> (<["d" := 86400]> ∅)))).

(** The character class [[\ssmd]] of the duration pattern. *)
Definition is_code_char (c : ascii) : bool :=
  PyStr.is_space c || Ascii.eqb c "s" || Ascii.eqb c "m" || Ascii.eqb c "d".

(** [re.match("^(?P<val>\d+)(?P<code>[\ssmd]+)", s)].  Digits and code
    characters are disjoint classes, so the greedy match of [\d+] is the
    whole digit prefix and no shorter choice can succeed. *)
Definition duration_match (s : string) : option (string * string) :=
  let '(val, rest) := PyStr.span PyStr.is_digit s in
  let '(code, _) := PyStr.span is_code_char rest in
  if PyStr.is_empty val || PyStr.is_empty code then None else Some (val, code).

(** [duration_type(value)] *)
Definition duration_type (value : string) : res Z :=
  let value' := PyStr.strip value +:+ " " in
  match duration_match (PyStr.lower value') with
  | Some (v, code) =>
      let val := PyStr.int_of_digits v in
      let code' :=
        match PyStr.head1 code with
        | None => "s"
        | Some c => c
        end in
      match secs !! code' with
      | Some k => Ok (val * k)
      | None => Raise KeyError
      end
  | None =>
      Raise (ArgumentTypeError
        ("Unexpected duration type " +:+ PyStr.dq +:+ PyStr.strip value' +:+ PyStr.dq +:+ "."))
  end.

(** ** Python values *)

(** Values that flow through the listener: what [json.loads] produces
    ([PyDict], [PyList], scalars) and the attribute-carrying model objects
    that tweepy builds from them ([PyObj]). *)
Inductive pyval : Type :=
  | PyNone
  | PyBool (b : bool)
  | PyInt (z : Z)
  | PyStr (s : string)
  | PyList (items : list pyval)
  | PyDict (members : list (string * pyval))
  | PyObj (attrs : list (string * pyval)).

Fixpoint assoc {A : Type} (k : string) (l : list (string * A)) : option A :=
  match l with
  | [] => None
  | (k', v) :: l' => if String.eqb k k' then Some v else assoc k l'
  end.

(** [o.name] *)
Definition getattr (o : pyval) (name : string) : res pyval :=
  match o with
  | PyObj attrs =>
      match assoc name attrs with
      | Some v => Ok v
      | None => Raise AttributeError
      end
  | _ => Raise AttributeError
  end.

(** [hasattr(o, name)] *)
Definition hasattr (o : pyval) (name : string) : bool :=
  match getattr o name with
  | Ok _ => true
  | Raise _ => false
  end.

(** [d[key]] *)
Definition getitem (d : pyval) (key : string) : res pyval :=
  match d with
  | PyDict members =>
      match assoc key members with
      | Some v => Ok v
      | None => Raise KeyError
      end
  | _ => Raise (TypeError "object is not subscriptable")
  end.

(** [d.get(key)] *)
Definition dict_get (d : pyval) (key : string) : res pyval :=
  match d with
  | PyDict members =>
      match assoc key members with
      | Some v => Ok v
      | None => Ok PyNone
      end
  | _ => Raise AttributeError
  end.

(** [r is False] *)
Definition is_False (r : pyval) : bool :=
  match r with
  | PyBool false => true
  | _ => false
  end.

(** Truthiness of an optional integer option ([None] and [0] are false). *)
Definition truthy_int (o : option Z) : bool :=
  match o with
  | Some z => negb (z =? 0)
  | None => false
  end.

Definition int_value (o : option Z) : Z := default 0 o.

(** ** Collaborators outside [streamer.py] *)

(** Library and sibling-module functions the listener calls.  The handlers
    are written against this interface; [json_loads] is [simplejson.loads],
    [Status_parse] is [tweepy.models.Status.parse(api, json)],
    [resolve_with_default] is [utils.resolve_with_default(obj, path, default)]
    and [csv_writerow] is the [csv] writer bound to standard output.
    [resolve_with_default] either yields a value or signals the
    field-not-found condition ([None]), which its caller sees as an
    [AttributeError]. *)
Class Collaborators : Type := {
  json_loads : string -> res pyval;
  Status_parse : pyval -> res pyval;
  resolve_with_default : pyval -> string -> pyval -> option pyval;
  csv_writerow : list pyval -> res unit
}.

(** The field-not-found condition as the exception the handlers catch. *)
Definition resolved (r : option pyval) : res pyval :=
  match r with
  | Some v => Ok v
  | None => Raise AttributeError
  end.

(** ** Options and the world the listener runs in *)

(** The [argparse] namespace, as far as the listener and the session loop
    read it. *)
Record Opts : Type := mkOpts {
  fields : option (list string);
  duration : option Z;
  max_tweets : option Z;
  report_lag : option Z;
  user_lang : list string;
  no_retweets : bool;
  terminate_on_error : bool
}.

Inductive level : Type := DEBUG | INFO | WARN | ERROR | EXCEPTION.

(** One call of a [logger] method: level, format string, arguments. *)
Record logrec : Type := mkLog {
  log_level : level;
  log_format : string;
  log_args : list pyval
}.

Inductive output : Type :=
  | CsvRow (row : list pyval)
  | RawLine (text : string).

(** The entries of [self.recognizers]. *)
Inductive handler : Type :=
  | parse_status_and_dispatch_h
  | parse_limit_and_dispatch_h
  | parse_warning_and_dispatch_h
  | on_disconnect_h
  | on_unrecognized_h.

Inductive Recognizer : Type :=
  | DataContainsRecognizer (handler_method : handler) (match_string : string)
  | MatchAnyRecognizer (handler_method : handler).

(** Calls made on recognizers, in order: a record of which predicates were
    evaluated and which handler ran. *)
Inductive call : Type :=
  | CallMatch (r : Recognizer)
  | CallHandle (r : Recognizer).

(** The [StreamListener] instance fields, the module global [opts] bound by
    the [__main__] block, the clock, and what has been written so far. *)
Record World : Type := mkWorld {
  opts : Opts;
  running : bool;
  first_message_received : option Z;
  status_count : Z;
  global_opts : option Opts;
  now : Z;
  stdout : list output;
  logged : list logrec;
  slept : list Z;
  calls : list call
}.

Definition set_running (b : bool) (w : World) : World :=
  mkWorld (opts w) b (first_message_received w) (status_count w) (global_opts w)
          (now w) (stdout w) (logged w) (slept w) (calls w).

Definition set_first_message_received (t : option Z) (w : World) : World :=
  mkWorld (opts w) (running w) t (status_count w) (global_opts w)
          (now w) (stdout w) (logged w) (slept w) (calls w).

Definition set_status_count (n : Z) (w : World) : World :=
  mkWorld (opts w) (running w) (first_message_received w) n (global_opts w)
          (now w) (stdout w) (logged w) (slept w) (calls w).

Definition set_now (t : Z) (w : World) : World :=
  mkWorld (opts w) (running w) (first_message_received w) (status_count w) (global_opts w)
          t (stdout w) (logged w) (slept w) (calls w).

Definition add_stdout (o : output) (w : World) : World :=
  mkWorld (opts w) (running w) (first_message_received w) (status_count w) (global_opts w)
          (now w) (stdout w ++ [o]) (logged w) (slept w) (calls w).

Definition add_logged (l : logrec) (w : World) : World :=
  mkWorld (opts w) (running w) (first_message_received w) (status_count w) (global_opts w)
          (now w) (stdout w) (logged w ++ [l]) (slept w) (calls w).

Definition add_slept (d : Z) (w : World) : World :=
  mkWorld (opts w) (running w) (first_message_received w) (status_count w) (global_opts w)
          (now w) (stdout w) (logged w) (slept w ++ [d]) (calls w).

Definition add_call (c : call) (w : World) : World :=
  mkWorld (opts w) (running w) (first_message_received w) (status_count w) (global_opts w)
          (now w) (stdout w) (logged w) (slept w) (calls w ++ [c]).

(** ** State and exceptions *)

(** A computation reads and updates the world and either returns a value or
    raises; updates made before a raise are kept. *)
Definition M (A : Type) : Type := World -> res A * World.

Definition ret {A : Type} (a : A) : M A := fun w => (Ok a, w).

Definition bind {A B : Type} (m : M A) (k : A -> M B) : M B :=
  fun w =>
    match m w with
    | (Ok a, w') => k a w'
    | (Raise e, w') => (Raise e, w')
    end.

Notation "x <- m ;; k" := (bind m (fun x => k))
  (at level 100, m at next level, k at level 200, right associativity).
Notation "m ;; k" := (bind m (fun _ => k))
  (at level 100, k at level 200, right associativity).

Definition raise {A : Type} (e : exn) : M A := fun w => (Raise e, w).

Definition lift {A : Type} (r : res A) : M A := fun w => (r, w).

Definition gets {A : Type} (f : World -> A) : M A := fun w => (Ok (f w), w).

Definition modify (f : World -> World) : M unit := fun w => (Ok tt, f w).

(** [try: body except ...:] where [handlers] picks the clause for the
    exception, if any. *)
Definition try_except {A : Type} (body : M A) (handlers : exn -> option (M A)) : M A :=
  fun w =>
    match body w with
    | (Ok a, w') => (Ok a, w')
    | (Raise e, w') =>
        match handlers e with
        | Some h => h w'
        | None => (Raise e, w')
        end
    end.

Definition log (l : level) (fmt : string) (args : list pyval) : M unit :=
  modify (add_logged (mkLog l fmt args)).

(** [int(time.time())] *)
Definition time_time : M Z := gets now.

(** [time.sleep(d)] *)
Definition sleep (d : Z) : M unit := modify (add_slept d).

(** ** Recognizers *)

(** Modelled from the spec: the [message_recognizers] module is not part of
    the sources at hand.  A recognizer is a (predicate, handler) pair; the
    predicate of a [DataContainsRecognizer] is substring containment of its
    [match_string] in the raw text, and that of the [MatchAnyRecognizer]
    always matches. *)
Definition recognizer_match (r : Recognizer) (data : string) : bool :=
  match r with
  | DataContainsRecognizer _ match_string => PyStr.contains match_string data
  | MatchAnyRecognizer _ => true
  end.

Definition handler_method (r : Recognizer) : handler :=
  match r with
  | DataContainsRecognizer h _ => h
  | MatchAnyRecognizer h => h
  end.

(** The entries of [self.recognizers] (lines 110-131). *)
Definition status_recognizer : Recognizer :=
  DataContainsRecognizer parse_status_and_dispatch_h
    (PyStr.dq +:+ "in_reply_to_user_id_str" +:+ PyStr.dq +:+ ":").

Definition limit_recognizer : Recognizer :=
  DataContainsRecognizer parse_limit_and_dispatch_h
    (PyStr.dq +:+ "limit" +:+ PyStr.dq +:+ ":{").

Definition warning_recognizer : Recognizer :=
  DataContainsRecognizer parse_warning_and_dispatch_h
    (PyStr.dq +:+ "warning" +:+ PyStr.dq +:+ ":").

Definition disconnect_recognizer : Recognizer :=
  DataContainsRecognizer on_disconnect_h
    (PyStr.dq +:+ "disconnect" +:+ PyStr.dq +:+ ":").

Definition catch_all_recognizer : Recognizer :=
  MatchAnyRecognizer on_unrecognized_h.

(** [self.recognizers], in decreasing priority order. *)
Definition recognizers : list Recognizer :=
  [ status_recognizer; limit_recognizer; warning_recognizer;
    disconnect_recognizer; catch_all_recognizer ].

Definition RETRY_LIMIT : Z := 10.
Definition MISSING_FIELD_VALUE : pyval := PyStr "".

(** Control flow inside a method body: an executed [return v], or falling
    through to the next statement with a value in hand. *)
Inductive flow (A : Type) : Type :=
  | Return (v : pyval)
  | Fall (a : A).

Arguments Return {A} v.
Arguments Fall {A} a.

(** ** The stream listener (lines 100-292) *)

Section StreamListener.

Context `{Collaborators}.

(** [on_unrecognized] (lines 139-140) *)
Definition on_unrecognized (stream_data : string) : M pyval :=
  log WARN "Unrecognized: %s" [PyStr (PyStr.strip stream_data)] ;;
  ret PyNone.

(** [on_disconnect] (lines 142-147) *)
Definition on_disconnect (stream_data : string) : M pyval :=
  msg <- lift (json_loads stream_data) ;;
  code <- lift (resolved (resolve_with_default msg "disconnect.code" (PyInt 0))) ;;
  stream_name <- lift (resolved (resolve_with_default msg "disconnect.stream_name" (PyStr "n/a"))) ;;
  reason <- lift (resolved (resolve_with_default msg "disconnect.reason" (PyStr "n/a"))) ;;
  log WARN "Disconnect: code: %d stream_name: %s reason: %s" [code; stream_name; reason] ;;
  ret PyNone.

(** [on_warning] (lines 235-237) *)
Definition on_warning (warning : pyval) : M pyval :=
  code <- lift (getitem warning "code") ;;
  message <- lift (getitem warning "message") ;;
  log WARN "Warning: code=%s message=%s" [code; message] ;;
  ret PyNone.

(** [parse_warning_and_dispatch] (lines 149-155) *)
Definition parse_warning_and_dispatch (stream_data : string) : M pyval :=
  try_except
    (decoded <- lift (json_loads stream_data) ;;
     warning <- lift (dict_get decoded "warning") ;;
     on_warning warning)
    (fun e =>
       match e with
       | JSONDecodeError =>
           Some (log EXCEPTION "Exception parsing: %s" [PyStr stream_data] ;;
                 ret (PyBool false))
       | _ => None
       end).

(** [tweepy.StreamListener.on_limit], not overridden: returns nothing. *)
Definition on_limit (track : pyval) : M pyval := ret PyNone.

(** [parse_limit_and_dispatch] (lines 214-215) *)
Definition parse_limit_and_dispatch (stream_data : string) : M pyval :=
  decoded <- lift (json_loads stream_data) ;;
  limit <- lift (getitem decoded "limit") ;;
  track <- lift (getitem limit "track") ;;
  on_limit track.

(** [is_retweet] (lines 217-220) *)
Definition is_retweet (tweet : pyval) : M bool :=
  if hasattr tweet "retweeted_status" then ret true
  else
    text <- lift (getattr tweet "text") ;;
    match text with
    | PyStr s => ret (PyStr.startswith "RT " s || PyStr.contains " RT " s)
    | _ => raise AttributeError
    end.

(** [tweet_matchp] (lines 222-233) *)
Definition tweet_matchp (tweet : pyval) : M bool :=
  o <- gets opts ;;
  rt <- (if no_retweets o then is_retweet tweet else ret false) ;;
  if rt then ret false
  else
    match user_lang o with
    | [] => ret true
    | langs =>
        user <- lift (getattr tweet "user") ;;
        lang <- lift (getattr user "lang") ;;
        match lang with
        | PyStr l => ret (existsb (String.eqb l) langs)
        | _ => ret false
        end
    end.

(** The count test of [should_stop] (lines 289-292). *)
Definition count_stop : M bool :=
  o <- gets opts ;;
  n <- gets status_count ;;
  if truthy_int (max_tweets o) && (n >? int_value (max_tweets o)) then
    log DEBUG "Stop requested due to count limits (%d)." [PyInt (int_value (max_tweets o))] ;;
    ret true
  else ret false.

(** [should_stop] (lines 276-292) *)
Definition should_stop : M bool :=
  o <- gets opts ;;
  first <- gets first_message_received ;;
  if truthy_int (duration o) then
    if truthy_int first then
      t <- time_time ;;
      let et := t - int_value first in
      let flag := et >=? int_value (duration o) in
      (if flag then
         log DEBUG "Stop requested due to duration limits (et=%d, target=%d seconds)."
             [PyInt et; PyInt (int_value (duration o))]
       else ret tt) ;;
      ret flag
    else count_stop
  else count_stop.

(** [value.encode('utf8')] with the [AttributeError] of values that are
    not strings swallowed; strings are byte strings here, already
    encoded. *)
Definition encode_utf8 (value : pyval) : pyval :=
  match value with
  | PyStr s => PyStr s
  | other => other
  end.

(** The loop over [self.opts.fields] (lines 171-192): either an executed
    [return], or the finished row. *)
Fixpoint build_row (status : pyval) (fs : list string) (csvrow : list pyval)
  : M (flow (list pyval)) :=
  match fs with
  | [] => ret (Fall csvrow)
  | f :: fs' =>
      r <- try_except
            (value <- lift (resolved (resolve_with_default status f PyNone)) ;;
             ret (Fall value))
            (fun e =>
               match e with
               | AttributeError =>
                   Some (g <- gets global_opts ;;
                         match g with
                         | None => raise (NameError "opts")
                         | Some o =>
                             if terminate_on_error o then
                               id_str <- lift (getattr status "id_str") ;;
                               log ERROR "Field '%s' not found in tweet id=%s, terminating."
                                   [PyStr f; id_str] ;;
                               modify (set_running false) ;;
                               ret (Return (PyBool false))
                             else ret (Fall MISSING_FIELD_VALUE)
                         end)
               | _ => None
               end) ;;
      match r with
      | Return v => ret (Return v)
      | Fall value => build_row status fs' (csvrow ++ [encode_utf8 value])
      end
  end.

(** The output step (lines 168-199).  When the writer raises, [f] is the
    loop variable left by the finished loop: the last field. *)
Definition emit_status (status : pyval) (stream_data : string) : M (flow unit) :=
  o <- gets opts ;;
  match fields o with
  | Some (f :: fs) =>
      try_except
        (r <- build_row status (f :: fs) [] ;;
         match r with
         | Return v => ret (Return v)
         | Fall csvrow =>
             lift (csv_writerow csvrow) ;;
             modify (add_stdout (CsvRow csvrow)) ;;
             ret (Fall tt)
         end)
        (fun e =>
           match e with
           | UnicodeEncodeError =>
               Some (log WARN (List.last (f :: fs) "") [] ;; ret (Fall tt))
           | _ => None
           end)
  | _ =>
      modify (add_stdout (RawLine (PyStr.strip stream_data))) ;;
      ret (Fall tt)
  end.

(** The lag report (lines 204-212).  Times are whole seconds;
    [delta.seconds] is the seconds component of the difference, between 0
    and 86399. *)
Definition report_lag_check (stream_data : string) : M unit :=
  o <- gets opts ;;
  if truthy_int (report_lag o) then
    t <- gets now ;;
    decoded <- lift (json_loads stream_data) ;;
    tweepy_status <- lift (Status_parse decoded) ;;
    created_at <- lift (getattr tweepy_status "created_at") ;;
    match created_at with
    | PyInt c =>
        let seconds := (t - c) `mod` 86400 in
        if Z.abs seconds >? int_value (report_lag o) then
          log WARN "Tweet time and local time differ by %d seconds" [PyInt seconds]
        else ret tt
    | _ => raise (TypeError "unsupported operand type(s) for -")
    end
  else ret tt.

(** [parse_status_and_dispatch] (lines 157-212) *)
Definition parse_status_and_dispatch (stream_data : string) : M pyval :=
  decoded <- lift (json_loads stream_data) ;;
  status <- lift (Status_parse decoded) ;;
  matched <- tweet_matchp status ;;
  r <- (if matched then
         n <- gets status_count ;;
         modify (set_status_count (n + 1)) ;;
         stop <- should_stop ;;
         if stop then
           modify (set_running false) ;;
           ret (Return (PyBool false))
         else emit_status status stream_data
       else ret (Fall tt)) ;;
  match r with
  | Return v => ret v
  | Fall _ => report_lag_check stream_data ;; ret PyNone
  end.

(** [on_error] (lines 239-246) *)
Definition on_error (status_code : Z) : M pyval :=
  log ERROR "StreamListener.on_error: %r" [PyInt status_code] ;;
  if negb (status_code =? 401) then
    log ERROR " -- stopping." [] ;;
    modify (set_running false) ;;
    ret (PyBool false)
  else ret PyNone.

(** [on_timeout] (lines 248-254) *)
Definition on_timeout : M pyval :=
  log WARN "on_timeout" [] ;;
  ret PyNone.

(** Modelled from the spec: [handle_message] of a recognizer from the
    [message_recognizers] module passes the raw text to the recognizer's
    handler and hands back the handler's outcome. *)
Definition handle_message (r : Recognizer) (data : string) : M pyval :=
  modify (add_call (CallHandle r)) ;;
  match handler_method r with
  | parse_status_and_dispatch_h => parse_status_and_dispatch data
  | parse_limit_and_dispatch_h => parse_limit_and_dispatch data
  | parse_warning_and_dispatch_h => parse_warning_and_dispatch data
  | on_disconnect_h => on_disconnect data
  | on_unrecognized_h => on_unrecognized data
  end.

(** [r.match(data)], recorded in [calls]. *)
Definition call_match (r : Recognizer) (data : string) : M bool :=
  modify (add_call (CallMatch r)) ;;
  ret (recognizer_match r data).

(** The dispatch loop of [on_data] (lines 264-274). *)
Fixpoint dispatch (rs : list Recognizer) (data : string) : M pyval :=
  match rs with
  | [] => ret PyNone
  | r :: rs' =>
      m <- call_match r data ;;
      if m then
        outcome <- handle_message r data ;;
        if is_False outcome then
          modify (set_running false) ;;
          ret (PyBool false)
        else ret PyNone
      else dispatch rs' data
  end.

(** [on_data] (lines 256-274) *)
Definition on_data (data : string) : M pyval :=
  first <- gets first_message_received ;;
  (if negb (truthy_int first) then
     t <- time_time ;;
     modify (set_first_message_received (Some t))
   else ret tt) ;;
  stop <- should_stop ;;
  if stop then
    modify (set_running false) ;;
    ret (PyBool false)
  else dispatch recognizers data.

End StreamListener.

(** ** The transport and the session loop (lines 351-377) *)

(** What one call of [streamer.filter] brings, in order, as the listener
    sees it: a raw message read at a clock time, a response status other
    than 200, a read timeout, or an exception raised inside the stream. *)
Inductive transport_event : Type :=
  | Message (at_time : Z) (data : string)
  | HttpStatus (status_code : Z)
  | Timeout
  | Failure (e : exn).

Inductive loop_state : Type :=
  | Exited
  | AwaitingTransport.

Definition stall_warnings_notice : string :=
  "Installed Tweepy version does not support stall_warnings parameter.  Restarting without stall warnings.".

Section Session.

Context `{Collaborators}.

(** [tweepy.Stream.filter] driving the listener: a callback that returns
    [False] ends the call; an exception of a callback or of the stream
    leaves it; the end of the events is the stream returning. *)
Fixpoint stream_filter (events : list transport_event) : M unit :=
  match events with
  | [] => ret tt
  | Message t data :: rest =>
      modify (set_now t) ;;
      r <- on_data data ;;
      if is_False r then ret tt else stream_filter rest
  | HttpStatus code :: rest =>
      r <- on_error code ;;
      if is_False r then ret tt else stream_filter rest
  | Timeout :: rest =>
      r <- on_timeout ;;
      if is_False r then ret tt else stream_filter rest
  | Failure e :: _ => raise e
  end.

(** One pass through the body of [while listener.running] (lines
    352-377).  The retry after a [TypeError] about [stall_warnings] reads
    the name [track], which nothing binds. *)
Definition session_iteration (events : list transport_event) : M unit :=
  try_except
    (try_except
       (log DEBUG "streamer.filter(%s)" [] ;;
        stream_filter events)
       (fun e =>
          match e with
          | TypeError msg =>
              Some (if PyStr.contains "stall_warnings" msg then
                      log WARN stall_warnings_notice [] ;;
                      raise (NameError "track")
                    else raise e)
          | _ => None
          end) ;;
     log DEBUG "Returned from streaming..." [])
    (fun e =>
       match e with
       | IOError =>
           Some (o <- gets opts ;;
                 (if terminate_on_error o then modify (set_running false) else ret tt) ;;
                 log EXCEPTION "Caught IOError" [])
       | KeyboardInterrupt => Some (modify (set_running false))
       | _ =>
           Some (modify (set_running false) ;;
                 log EXCEPTION "Unexpected exception." [])
       end) ;;
  r <- gets running ;;
  if r then
    log DEBUG "Sleeping..." [] ;;
    sleep 5
  else ret tt.

(** The [while listener.running] loop, run against the transport's
    behaviour on successive calls of [streamer.filter].  The loop has no
    bound of its own: when [attempts] is used up and [running] still
    holds, it is about to call the transport again. *)
Fixpoint process_tweets_loop (attempts : list (list transport_event)) : M loop_state :=
  r <- gets running ;;
  if r then
    match attempts with
    | [] => ret AwaitingTransport
    | events :: rest =>
        session_iteration events ;;
        process_tweets_loop rest
    end
  else ret Exited.

End Session.

(** ** Command line (lines 456-501) *)

(** The value of [user_lang] after [_parse_command_line]: [argparse] runs
    the [type] conversion on the option's text, and on the string default
    ['en'] when the option is absent; a list containing ['*'] is replaced
    by the empty list. *)
Definition parse_user_lang (arg : option string) : list string :=
  let p_user_lang := csv_args (default "en" arg) in
  match p_user_lang with
  | [] => p_user_lang
  | _ => if existsb (String.eqb "*") p_user_lang then [] else p_user_lang
  end.

(** ** A reference instance of the collaborators *)

(** A decoder for the part of JSON the examples use: objects, arrays,
    strings with the simple escapes, integers, [true], [false], [null]. *)
Module RefJson.

Definition quote : ascii := ascii_of_nat 34.
Definition backslash : ascii := ascii_of_nat 92.

Definition is_ws (c : ascii) : bool :=
  let n := nat_of_ascii c in
  Nat.eqb n 32 || Nat.eqb n 9 || Nat.eqb n 10 || Nat.eqb n 13.

Fixpoint skip_ws (s : string) : string :=
  match s with
  | String c r => if is_ws c then skip_ws r else s
  | EmptyString => EmptyString
  end.

Definition unescape (c : ascii) : option ascii :=
  if Ascii.eqb c quote then Some quote
  else if Ascii.eqb c backslash then Some backslash
  else if Ascii.eqb c "/" then Some "/"%char
  else if Ascii.eqb c "n" then Some (ascii_of_nat 10)
  else if Ascii.eqb c "t" then Some (ascii_of_nat 9)
  else if Ascii.eqb c "r" then Some (ascii_of_nat 13)
  else None.

(** The characters of a string literal after its opening quote, and what
    follows the closing quote. *)
Fixpoint string_body (s : string) : option (string * string) :=
  match s with
  | EmptyString => None
  | String c r =>
      if Ascii.eqb c quote then Some (EmptyString, r)
      else if Ascii.eqb c backslash then
        match r with
        | String e r' =>
            match unescape e, string_body r' with
            | Some ch, Some (body, rest) => Some (String ch body, rest)
            | _, _ => None
            end
        | EmptyString => None
        end
      else
        match string_body r with
        | Some (body, rest) => Some (String c body, rest)
        | None => None
        end
  end.

Definition number (s : string) : option (pyval * string) :=
  let '(sign, s1) :=
    match s with
    | String "-" r => (-1, r)
    | _ => (1, s)
    end in
  let '(digits, rest) := PyStr.span PyStr.is_digit s1 in
  if PyStr.is_empty digits then None
  else Some (PyInt (sign * PyStr.int_of_digits digits), rest).

Fixpoint value (fuel : nat) (s : string) : option (pyval * string) :=
  match fuel with
  | O => None
  | S n =>
      match skip_ws s with
      | String "{" r =>
          match skip_ws r with
          | String "}" r' => Some (PyDict [], r')
          | r' => members n r' []
          end
      | String "[" r =>
          match skip_ws r with
          | String "]" r' => Some (PyList [], r')
          | r' => items n r' []
          end
      | String "n" (String "u" (String "l" (String "l" r))) => Some (PyNone, r)
      | String "t" (String "r" (String "u" (String "e" r))) => Some (PyBool true, r)
      | String "f" (String "a" (String "l" (String "s" (String "e" r)))) =>
          Some (PyBool false, r)
      | String c r =>
          if Ascii.eqb c quote then
            match string_body r with
            | Some (body, rest) => Some (PyStr body, rest)
            | None => None
            end
          else number (String c r)
      | EmptyString => None
      end
  end
with members (fuel : nat) (s : string) (acc : list (string * pyval))
  : option (pyval * string) :=
  match fuel with
  | O => None
  | S n =>
      match skip_ws s with
      | String c r =>
          if Ascii.eqb c quote then
            match string_body r with
            | Some (key, r1) =>
                match skip_ws r1 with
                | String ":" r2 =>
                    match value n r2 with
                    | Some (v, r3) =>
                        match skip_ws r3 with
                        | String "," r4 => members n r4 ((key, v) :: acc)
                        | String "}" r4 => Some (PyDict ((key, v) :: acc), r4)
                        | _ => None
                        end
                    | None => None
                    end
                | _ => None
                end
            | None => None
            end
          else None
      | EmptyString => None
      end
  end
with items (fuel : nat) (s : string) (acc : list pyval) : option (pyval * string) :=
  match fuel with
  | O => None
  | S n =>
      match value n s with
      | Some (v, r1) =>
          match skip_ws r1 with
          | String "," r2 => items n r2 (acc ++ [v])
          | String "]" r2 => Some (PyList (acc ++ [v]), r2)
          | _ => None
          end
      | None => None
      end
  end.

(** [loads(s)]: one value and nothing but white space after it.  A key
    given twice keeps the later value, which [assoc] finds first. *)
Definition loads (s : string) : res pyval :=
  match value (S (String.length s)) s with
  | Some (v, rest) =>
      if PyStr.is_empty (skip_ws rest) then Ok v else Raise JSONDecodeError
  | None => Raise JSONDecodeError
  end.

(** Text written with apostrophes for the double quotes of JSON. *)
Fixpoint q (s : string) : string :=
  match s with
  | EmptyString => EmptyString
  | String c r => String (if Ascii.eqb c "'" then quote else c) (q r)
  end.

End RefJson.

(** The model object tweepy builds from a decoded status: the members
    become attributes, and the [user] member becomes an object as well. *)
Definition as_object (v : pyval) : res pyval :=
  match v with
  | PyDict members => Ok (PyObj members)
  | _ => Raise AttributeError
  end.

Fixpoint status_attrs (members : list (string * pyval)) : res (list (string * pyval)) :=
  match members with
  | [] => Ok []
  | (k, v) :: rest =>
      match (if String.eqb k "user" then as_object v else Ok v), status_attrs rest with
      | Ok v', Ok attrs => Ok ((k, v') :: attrs)
      | Raise e, _ => Raise e
      | _, Raise e => Raise e
      end
  end.

Definition ref_Status_parse (decoded : pyval) : res pyval :=
  match decoded with
  | PyDict members =>
      match status_attrs members with
      | Ok attrs => Ok (PyObj attrs)
      | Raise e => Raise e
      end
  | _ => Raise AttributeError
  end.

(** Walk a dotted path through attributes and mappings, left to right. *)
Fixpoint resolve (obj : pyval) (path : list string) : option pyval :=
  match path with
  | [] => Some obj
  | segment :: rest =>
      match obj with
      | PyDict members | PyObj members =>
          match assoc segment members with
          | Some v => resolve v rest
          | None => None
          end
      | _ => None
      end
  end.

(** Modelled from the spec: [utils.resolve_with_default] is not part of the
    sources at hand.  It splits the path on the dot and walks nested
    attributes and mappings left to right; when a segment is absent it
    returns the caller's default, except in strict mode, where absence is
    the field-not-found condition.  Strict mode is taken to be a call whose
    default is [None], as the status handler's call is. *)
Definition ref_resolve_with_default (obj : pyval) (path : string) (dflt : pyval)
  : option pyval :=
  match resolve obj (PyStr.split "." path) with
  | Some v => Some v
  | None =>
      match dflt with
      | PyNone => None
      | d => Some d
      end
  end.

#[export] Instance ref_collaborators : Collaborators := {
  json_loads := RefJson.loads;
  Status_parse := ref_Status_parse;
  resolve_with_default := ref_resolve_with_default;
  csv_writerow := fun _ => Ok tt
}.

(** ** Frame properties of computations *)

(** [m] leaves the observation [f] of the world as it found it, whether it
    returns or raises. *)
Definition preserves {A B : Type} (f : World -> B) (m : M A) : Prop :=
  forall w, f (m w).2 = f w.

(** The world at the entry of the dispatch loop of [on_data], when the
    message arrives in [w]: the first receipt time is recorded. *)
Definition entry_world (w : World) : World :=
  if truthy_int (first_message_received w) then w
  else set_first_message_received (Some (now w)) w.

(** The four recognizers ahead of the catch-all. *)
Definition specific_recognizers : list Recognizer := take 4 recognizers.

(** ** Concrete sessions used in the examples *)

(** A session eleven seconds into a sixty-second capture, limited to two
    records, with three records matched. *)
Definition limited_opts : Opts :=
  mkOpts None (Some 60) (Some 2) None ["en"] false false.

Definition over_count_world : World :=
  mkWorld limited_opts true (Some 100) 3 (Some limited_opts) 111 [] [] [] [].

(** A listener as [__main__] sets it up when no option is given: the
    language list is the parsed default, nothing else is configured. *)
Definition default_opts : Opts :=
  mkOpts None None None None (parse_user_lang None) false false.

Definition fresh_world (o : Opts) : World :=
  mkWorld o true None 0 (Some o) 0 [] [] [] [].

(** A status whose author's profile language is French. *)
Definition french_status : string :=
  RefJson.q "{'in_reply_to_user_id_str':null,'id_str':'7','text':'bonjour','user':{'lang':'fr'}}".

(** The record the warning handler logs when decoding fails. *)
Definition parse_failure_record (stream_data : string) : logrec :=
  mkLog EXCEPTION "Exception parsing: %s" [PyStr stream_data].

(** The end of one pass of the session loop (lines 375-377): sleep five
    seconds if the listener is still running. *)
Definition sleep_if_running (w : World) : World :=
  if running w then add_slept 5 (add_logged (mkLog DEBUG "Sleeping..." []) w) else w.

Definition truncated_limit : string := RefJson.q "{'limit':{'track':".
Definition truncated_warning : string := RefJson.q "{'warning':{'code':'FALLING_BEHIND',".

(** The world after one failed attempt that is retried: the call and the
    [IOError] are logged and the loop has slept five seconds. *)
Definition io_retry (w : World) : World :=
  add_slept 5
    (add_logged (mkLog DEBUG "Sleeping..." [])
       (add_logged (mkLog EXCEPTION "Caught IOError" [])
          (add_logged (mkLog DEBUG "streamer.filter(%s)" []) w))).

(** Options with [--terminate-on-error] and nothing else. *)
Definition terminating_opts : Opts :=
  mkOpts None None None None ["en"] false true.

(** A status in English, and a session limited to one record that has
    already matched one. *)
Definition english_status : string :=
  RefJson.q "{'in_reply_to_user_id_str':null,'id_str':'8','text':'hello','user':{'lang':'en'}}".

Definition one_record_opts : Opts :=
  mkOpts None None (Some 1) None ["en"] false false.

Definition one_matched_world : World :=
  mkWorld one_record_opts true (Some 100) 1 (Some one_record_opts) 111 [] [] [] [].

(** The error record of the status handler for a field that is not found. *)
Definition field_not_found_record (f : string) (id_str : pyval) : logrec :=
  mkLog ERROR "Field '%s' not found in tweet id=%s, terminating." [PyStr f; id_str].

(** A field resolves on a status when strict resolution yields a value. *)
Definition resolves `{Collaborators} (status : pyval) (f : string) (v : pyval) : Prop :=
  resolve_with_default status f PyNone = Some v.

(** Three columns, the middle one absent from [english_status]. *)
Definition three_fields : list string := ["id_str"; "user.location"; "text"].

Definition three_field_opts (terminate : bool) : Opts :=
  mkOpts (Some three_fields) None None None ["en"] false terminate.

Definition english_status_object : pyval :=
  PyObj [("user", PyObj [("lang", PyStr "en")]); ("text", PyStr "hello");
         ("id_str", PyStr "8"); ("in_reply_to_user_id_str", PyNone)].

(** ** More on strings: joining and counting *)

(** [sep.join(items)] for a one-character separator. *)
Fixpoint join (sep : ascii) (items : list string) : string :=
  match items with
  | [] => EmptyString
  | [s] => s
  | s :: rest => s +:+ String sep (join sep rest)
  end.

(** [s.count(c)] for a character. *)
Fixpoint count_char (c : ascii) (s : string) : nat :=
  match s with
  | EmptyString => O
  | String x r => (if Ascii.eqb x c then 1 else 0)%nat + count_char c r
  end.

(** Every character of the string satisfies [f]. *)
Fixpoint all_chars (f : ascii -> bool) (s : string) : bool :=
  match s with
  | EmptyString => true
  | String c r => f c && all_chars f r
  end.

(** The names the macro table knows. *)
Definition macro_names : list string :=
  ["any"; "all"; "global"; "usa"; "contintental_usa"].

(** ** Location queries and filter arguments (lines 294-329) *)

(** A place of the geo search: its [full_name] and, when it has one, its
    [bounding_box] as the coordinates of [origin()] and of [corner()]. *)
Record Place : Type := mkPlace {
  full_name : string;
  bounding_box : option (list Q * list Q)
}.

(** The part of the [argparse] namespace read when the filter arguments
    are built: the positional [track] words and the options
    [--stall-warnings], [--locations] and [--location-query]. *)
Record FilterOpts : Type := mkFilterOpts {
  track : list string;
  stall_warnings : bool;
  locations : option (list string);
  location_query : option string
}.

(** The keyword arguments for [streamer.filter]; an absent key is [None]. *)
Record kwargs : Type := mkKwargs {
  kw_track : option (list string);
  kw_stall_warnings : option bool;
  kw_locations : option (list Q)
}.

(** Outcome of a computation that runs the macro lookup with a bounded
    number of calls. *)
Inductive fueled (A : Type) : Type :=
  | Done (a : A)
  | StillLooking.

Arguments Done {A} a.
Arguments StillLooking {A}.

Definition no_bounding_box_message (place_name : string) : string :=
  "Place '" +:+ place_name +:+ "' does not have a bounding box.".

Definition no_such_place_message (query : string) : string :=
  "'" +:+ query +:+ "': No such place.".

Section FilterArguments.

(** [tweepy.API(auth).geo_search(query=...)] and the built-in [float]. *)
Variable geo_search : string -> res (list Place).
Variable float : string -> res Q.

(** The loop over the places found (lines 302-316).  The format of the
    record logged for a matching place reads the place's [full_name], [id]
    and [url], which a place of the geo search carries. *)
Fixpoint first_matching_place (location_query normalized_location_query : string)
         (places : list Place) : M (list Q) :=
  match places with
  | [] => raise (ValueError (no_such_place_message location_query))
  | place :: rest =>
      log DEBUG ("Considering place " +:+ PyStr.dq +:+ "%s" +:+ PyStr.dq)
          [PyStr (full_name place)] ;;
      if String.eqb (PyStr.lower (PyStr.remove_char " " (full_name place)))
                    (PyStr.lower normalized_location_query) then
        log INFO "Found matching place: full_name=%(full_name)s id=%(id)s url=%(url)s"
            [PyStr (full_name place)] ;;
        match bounding_box place with
        | Some (origin, corner) =>
            let t := origin ++ corner in
            log INFO "  location box: %s" [] ;;
            ret t
        | None => raise (ValueError (no_bounding_box_message (full_name place)))
        end
      else first_matching_place location_query normalized_location_query rest
  end.

(** [location_query_to_location_filter] (lines 294-316).  A macro result
    is used when it is a non-empty list. *)
Definition location_query_to_location_filter (fuel : nat) (location_query : string)
  : M (fueled (list Q)) :=
  match lookup_location_query_macro fuel location_query with
  | OutOfFuel => ret StillLooking
  | Returned (Some (c :: cs)) => ret (Done (c :: cs))
  | Returned _ =>
      places <- lift (geo_search location_query) ;;
      let normalized_location_query := PyStr.remove_char " " location_query in
      t <- first_matching_place location_query normalized_location_query places ;;
      ret (Done t)
  end.

(** [map(float, items)], stopping at the first item that does not parse. *)
Fixpoint map_float (items : list string) : res (list Q) :=
  match items with
  | [] => Ok []
  | s :: rest =>
      match float s with
      | Ok q =>
          match map_float rest with
          | Ok qs => Ok (q :: qs)
          | Raise e => Raise e
          end
      | Raise e => Raise e
      end
  end.

(** [make_filter_args] (lines 319-329) *)
Definition make_filter_args (fuel : nat) (fo : FilterOpts) : M (fueled kwargs) :=
  let kw_t := match track fo with [] => None | ws => Some ws end in
  let kw_s := if stall_warnings fo then Some true else None in
  kw_l <- match locations fo with
          | Some (l :: ls) => qs <- lift (map_float (l :: ls)) ;; ret (Some qs)
          | _ => ret None
          end ;;
  match location_query fo with
  | Some (String c q) =>
      r <- location_query_to_location_filter fuel (String c q) ;;
      match r with
      | Done box => ret (Done (mkKwargs kw_t kw_s (Some box)))
      | StillLooking => ret StillLooking
      end
  | _ => ret (Done (mkKwargs kw_t kw_s kw_l))
  end.

End FilterArguments.

(** ** [process_tweets] as a whole (lines 332-377) *)

(** [StreamListener.__init__] (lines 102-108): a listener for [opts],
    running, with no message received and no status counted. *)
Definition StreamListener_init (o : Opts) (w : World) : World :=
  mkWorld o true None 0 (global_opts w) (now w) (stdout w) (logged w) (slept w) (calls w).

(** [isinstance(e, ValueError)]: [ValueError] itself and, of the
    exceptions named in [exn], its subclasses [UnicodeEncodeError] and
    [json.JSONDecodeError].  A subclass that has no name of its own here is
    represented by [ValueError]. *)
Definition is_ValueError (e : exn) : bool :=
  match e with
  | ValueError _ | UnicodeEncodeError | JSONDecodeError => true
  | _ => false
  end.

(** How [process_tweets] ends: with the exception whose [message] is
    written to standard error when the filter arguments cannot be built, or
    with the state of the session loop. *)
Inductive process_result : Type :=
  | StartupError (e : exn)
  | Ran (s : loop_state)
  | SetupStillLooking.

Section ProcessTweets.

Context `{Collaborators}.

Variable geo_search : string -> res (list Place).
Variable float : string -> res Q.

(** [process_tweets] (lines 332-377).  Reading the configuration and
    setting up the OAuth handler and the stream object (lines 334-343) are
    taken to succeed; they touch nothing the listener reads.  The clause
    [except ValueError] around [make_filter_args] catches that class and
    its subclasses and nothing else; the session loop runs outside that
    [try]. *)
Definition process_tweets (fuel : nat) (o : Opts) (fo : FilterOpts)
           (attempts : list (list transport_event)) : M process_result :=
  log DEBUG "Init tweepy.Stream()" [] ;;
  log DEBUG "%s" [] ;;
  modify (StreamListener_init o) ;;
  r <- try_except
         (kw <- make_filter_args geo_search float fuel fo ;; ret (inl kw))
         (fun e =>
            if is_ValueError e then
              Some (modify (set_running false) ;; ret (inr e))
            else None) ;;
  match r with
  | inr e => ret (StartupError e)
  | inl StillLooking => ret SetupStillLooking
  | inl (Done _) =>
      s <- process_tweets_loop attempts ;;
      ret (Ran s)
  end.

End ProcessTweets.

(** The start-up check of the [__main__] block (lines 509-512): whether the
    program exits for want of track keywords. *)
Definition main_exits_without_track (fo : FilterOpts) : bool :=
  match location_query fo, locations fo with
  | None, None =>
      match track fo with
      | [] => true
      | _ => false
      end
  | _, _ => false
  end.

(** ** Order on worlds *)

(** [m] takes every world to one related to it by [R], whether it returns
    or raises. *)
Definition respects {A : Type} (R : World -> World -> Prop) (m : M A) : Prop :=
  forall w, R w (m w).2.

(** What a session can do to the world: the options stay, a stopped
    listener stays stopped, the counter does not go down, and output, log,
    sleeps and recognizer calls are only added to. *)
Definition session_order (w w' : World) : Prop :=
  opts w' = opts w /\
  global_opts w' = global_opts w /\
  (running w = false -> running w' = false) /\
  status_count w <= status_count w' /\
  (exists more, stdout w' = stdout w ++ more) /\
  (exists more, logged w' = logged w ++ more) /\
  (exists more, slept w' = slept w ++ more) /\
  (exists more, calls w' = calls w ++ more).

(** ** Streams of messages *)

(** A message that none of the four specific recognizers takes. *)
Definition unrecognized (data : string) : Prop :=
  Forall (fun r => recognizer_match r data = false) specific_recognizers.

(** The record [on_unrecognized] logs. *)
Definition unrecognized_record (data : string) : logrec :=
  mkLog WARN "Unrecognized: %s" [PyStr (PyStr.strip data)].

(** A message delivered at a time. *)
Definition message_of (m : Z * string) : transport_event := Message m.1 m.2.

(** The line written for a record when no fields are asked for. *)
Definition raw_line (m : Z * string) : output := RawLine (PyStr.strip m.2).

(** A record that the status recognizer takes, that decodes and parses, and
    that the filters of the options [o] let through. *)
Definition accepted_status `{Collaborators} (o : Opts) (data : string) : Prop :=
  recognizer_match status_recognizer data = true /\
  exists decoded status,
    json_loads data = Ok decoded /\
    Status_parse decoded = Ok status /\
    forall w, opts w = o -> (tweet_matchp status w).1 = Ok true.

(** The record of the stop test when the count limit is passed. *)
Definition count_limit_record (m : Z) : logrec :=
  mkLog DEBUG "Stop requested due to count limits (%d)." [PyInt m].

(** ** Records of the status handler *)

(** The column of a field (lines 171-192): the resolved value, or the
    missing-field value when the field is not found, after encoding. *)
Definition column `{Collaborators} (status : pyval) (f : string) : pyval :=
  encode_utf8
    (match resolve_with_default status f PyNone with
     | Some v => v
     | None => MISSING_FIELD_VALUE
     end).

(** [delta.seconds] for a record created at [c], read at [t]. *)
Definition lag_seconds (t c : Z) : Z := (t - c) `mod` 86400.

(** What the lag report (lines 204-212) adds to the log. *)
Definition lag_report (limit t c : Z) (w : World) : World :=
  if lag_seconds t c >? limit then
    add_logged (mkLog WARN "Tweet time and local time differ by %d seconds"
                      [PyInt (lag_seconds t c)]) w
  else w.

(** The record [on_warning] logs. *)
Definition warning_record (code message : pyval) : logrec :=
  mkLog WARN "Warning: code=%s message=%s" [code; message].

(** A French status created at second 100. *)
Definition dated_french_status : string :=
  RefJson.q "{'in_reply_to_user_id_str':null,'created_at':100,'id_str':'9','text':'salut','user':{'lang':'fr'}}".

(** English only, with lags over ten seconds reported. *)
Definition lag_opts : Opts :=
  mkOpts None None None (Some 10) ["en"] false false.

(** A listener for [lag_opts] three days after second 100. *)
Definition three_days_later : World :=
  mkWorld lag_opts true (Some 100) 0 (Some lag_opts) 259300 [] [] [] [].

(** A record marked as a retweet by its text alone. *)
Definition retweet_object : pyval := PyObj [("text", PyStr "RT @a: hello")].

Definition no_retweet_opts : Opts :=
  mkOpts None None None None [] true false.

Definition warning_notice : string :=
  RefJson.q "{'warning':{'code':'FALLING_BEHIND','message':'slow','percent_full':60}}".

Definition limit_notice : string := RefJson.q "{'limit':{'track':1234}}".

(** ** Places and start-up *)

(** The comparison of a place with the query (line 305): the names are
    compared without their spaces and in lower case. *)
Definition place_matches (location_query : string) (place : Place) : bool :=
  String.eqb (PyStr.lower (PyStr.remove_char " " (full_name place)))
             (PyStr.lower (PyStr.remove_char " " location_query)).

(** The world after the records [ls] are logged in order. *)
Definition log_all (ls : list logrec) (w : World) : World :=
  fold_left (fun w l => add_logged l w) ls w.

(** A geo search that finds a town without a bounding box ahead of one
    with a box. *)
Definition two_springfields : list Place :=
  [ mkPlace "Spring Field" None;
    mkPlace "Springfield" (Some ([(-90)%Q; 39%Q], [(-89)%Q; 40%Q])) ].

Definition springfield_search (query : string) : res (list Place) := Ok two_springfields.

(** A [float] that takes nothing, and options whose locations it is
    given. *)
Definition no_float (s : string) : res Q :=
  Raise (ValueError ("could not convert string to float: " +:+ s)).

Definition bad_locations : FilterOpts :=
  mkFilterOpts ["news"] false (Some ["a"; "b"; "c"; "d"]) None.

(** An empty location query and nothing else. *)
Definition empty_query : FilterOpts := mkFilterOpts [] false None (Some "").

(** ** The dispatch loop *)

(** The world after the predicates of [rs] have been asked, in order. *)
Definition asked (rs : list Recognizer) (w : World) : World :=
  fold_left (fun w r => add_call (CallMatch r) w) rs w.

Section Frames.

Context {A B : Type} (f : World -> B).

Lemma preserves_ret (a : A) : preserves f (ret a).
Proof. intros w. reflexivity. Qed.

Lemma preserves_raise (e : exn) : preserves f (@raise A e).
Proof. intros w. reflexivity. Qed.

Lemma preserves_lift (r : res A) : preserves f (lift r).
Proof. intros w. reflexivity. Qed.

Lemma preserves_gets (g : World -> A) : preserves f (gets g).
Proof. intros w. reflexivity. Qed.

Lemma preserves_try_except (body : M A) (handlers : exn -> option (M A)) :
  preserves f body ->
  (forall e h, handlers e = Some h -> preserves f h) ->
  preserves f (try_except body handlers).
Proof.
  intros Hb Hh w. unfold try_except.
  specialize (Hb w). destruct (body w) as [[a|e] w'] eqn:E; simpl in *; [exact Hb|].
  destruct (handlers e) as [h|] eqn:Eh; simpl; [|exact Hb].
  rewrite (Hh e h Eh w'). exact Hb.
Qed.

End Frames.

Lemma preserves_bind {A B C : Type} (f : World -> C) (m : M A) (k : A -> M B) :
  preserves f m -> (forall a, preserves f (k a)) -> preserves f (bind m k).
Proof.
  intros Hm Hk w. unfold bind.
  specialize (Hm w). destruct (m w) as [[a|e] w'] eqn:E; simpl in *; [|exact Hm].
  rewrite (Hk a w'). exact Hm.
Qed.

Lemma preserves_modify {B : Type} (f : World -> B) (g : World -> World) :
  (forall w, f (g w) = f w) -> preserves f (modify g).
Proof. intros Hg w. apply Hg. Qed.

(** Decompose a computation along its structure; what is left are the
    updates that touch the observation. *)
Ltac frame_step :=
  first
    [ apply preserves_ret
    | apply preserves_raise
    | apply preserves_lift
    | apply preserves_gets
    | apply preserves_modify; intros; reflexivity
    | apply preserves_bind; [| intros ]
    | apply preserves_try_except;
      [| let e := fresh "e" in let h := fresh "h" in let Hh := fresh "Hh" in
         intros e h Hh; destruct e; inversion Hh; subst; clear Hh ]
    | match goal with
      | |- preserves _ (match ?x with _ => _ end) => destruct x
      end ].

Ltac frame := repeat frame_step.

Section ListenerFrames.

Context `{Collaborators}.

Lemma log_preserves {B : Type} (f : World -> B) l fmt args :
  (forall r w, f (add_logged r w) = f w) -> preserves f (log l fmt args).
Proof. intros Hf. apply preserves_modify. intros w. apply Hf. Qed.

End ListenerFrames.

Ltac unfold_listener :=
  unfold parse_status_and_dispatch, parse_limit_and_dispatch,
    parse_warning_and_dispatch, on_disconnect, on_unrecognized, on_warning,
    on_limit, emit_status, report_lag_check, tweet_matchp, is_retweet,
    should_stop, count_stop, on_error, on_timeout, log, time_time, sleep.

Section HandlerFrames.

Context `{Collaborators}.

Lemma build_row_preserves {B : Type} (f : World -> B) status fs csvrow :
  (forall r w, f (add_logged r w) = f w) ->
  (forall b w, f (set_running b w) = f w) ->
  preserves f (build_row status fs csvrow).
Proof.
  intros Hl Hr. revert csvrow.
  induction fs as [|fld fs IH]; intros csvrow; simpl.
  - apply preserves_ret.
  - unfold log.
    apply preserves_bind.
    + apply preserves_try_except.
      * frame.
      * intros e h Hh. destruct e; inversion Hh; subst; clear Hh.
        apply preserves_bind; [frame|]. intros [o|]; [|frame].
        destruct (terminate_on_error o); [|frame].
        apply preserves_bind; [frame|]. intros v.
        apply preserves_bind; [apply preserves_modify; intros; apply Hl|]. intros _.
        apply preserves_bind; [apply preserves_modify; intros; apply Hr|]. intros _.
        frame.
    + intros [v|v]; [frame|apply IH].
Qed.

Lemma handler_preserves_calls (r : Recognizer) (data : string) :
  preserves calls
    (match handler_method r with
     | parse_status_and_dispatch_h => parse_status_and_dispatch data
     | parse_limit_and_dispatch_h => parse_limit_and_dispatch data
     | parse_warning_and_dispatch_h => parse_warning_and_dispatch data
     | on_disconnect_h => on_disconnect data
     | on_unrecognized_h => on_unrecognized data
     end).
Proof.
  destruct (handler_method r); unfold_listener; frame;
    try (apply build_row_preserves; intros; reflexivity).
Qed.

End HandlerFrames.

Section Dispatch.

Context `{Collaborators}.

Lemma dispatch_cons (r : Recognizer) (rs : list Recognizer) (data : string) (w : World) :
  dispatch (r :: rs) data w
  = if recognizer_match r data then
      match handle_message r data (add_call (CallMatch r) w) with
      | (Ok v, w1) =>
          if is_False v then (Ok (PyBool false), set_running false w1) else (Ok PyNone, w1)
      | (Raise e, w1) => (Raise e, w1)
      end
    else dispatch rs data (add_call (CallMatch r) w).
Proof.
  simpl. unfold bind at 1, call_match, bind at 1, modify, ret.
  destruct (recognizer_match r data); [|reflexivity].
  unfold bind at 1.
  destruct (handle_message r data (add_call (CallMatch r) w)) as [[v|e] w1]; [|reflexivity].
  destruct (is_False v); reflexivity.
Qed.

Lemma handle_message_eq (r : Recognizer) (data : string) (w : World) :
  handle_message r data w
  = match handler_method r with
    | parse_status_and_dispatch_h => parse_status_and_dispatch data
    | parse_limit_and_dispatch_h => parse_limit_and_dispatch data
    | parse_warning_and_dispatch_h => parse_warning_and_dispatch data
    | on_disconnect_h => on_disconnect data
    | on_unrecognized_h => on_unrecognized data
    end (add_call (CallHandle r) w).
Proof. reflexivity. Qed.

(** The loop on a chain whose first match is [r]: the predicates up to
    [r] are asked, [r]'s handler is run on the world they leave, and its
    outcome decides between stopping the listener and going on. *)
Lemma dispatch_first_match (data : string) (skipped : list Recognizer) :
  forall (r : Recognizer) (later : list Recognizer) (w : World),
    Forall (fun r' => recognizer_match r' data = false) skipped ->
    recognizer_match r data = true ->
    dispatch (skipped ++ r :: later) data w
    = match handle_message r data (asked (skipped ++ [r]) w) with
      | (Ok outcome, w1) =>
          if is_False outcome then (Ok (PyBool false), set_running false w1)
          else (Ok PyNone, w1)
      | (Raise e, w1) => (Raise e, w1)
      end.
Proof.
  induction skipped as [|s skipped IH]; intros r later w Hno Hyes.
  - cbn [app]. rewrite dispatch_cons, Hyes. reflexivity.
  - inversion Hno as [|? ? Hs Hrest]; subst.
    cbn [app]. rewrite dispatch_cons, Hs. rewrite IH by assumption. reflexivity.
Qed.

Lemma dispatch_calls (data : string) (skipped : list Recognizer) :
  forall (r : Recognizer) (later : list Recognizer) (w : World),
    Forall (fun r' => recognizer_match r' data = false) skipped ->
    recognizer_match r data = true ->
    calls (dispatch (skipped ++ r :: later) data w).2
    = calls w ++ map CallMatch skipped ++ [CallMatch r; CallHandle r].
Proof.
  induction skipped as [|s skipped IH]; intros r later w Hno Hyes.
  - simpl. unfold bind at 1. unfold call_match. unfold bind at 1. simpl.
    rewrite Hyes. unfold bind at 1. unfold handle_message, bind at 1. simpl.
    pose proof (handler_preserves_calls r data
                  (add_call (CallHandle r) (add_call (CallMatch r) w))) as Hk.
    destruct (_ (add_call (CallHandle r) (add_call (CallMatch r) w)))
      as [[v|e] w'] eqn:E in Hk |- *; simpl in *.
    + destruct (is_False v); simpl; rewrite Hk, <- app_assoc; reflexivity.
    + rewrite Hk, <- app_assoc. reflexivity.
  - inversion Hno as [|? ? Hs Hrest]; subst.
    simpl. unfold bind at 1. unfold call_match. unfold bind at 1. simpl.
    rewrite Hs. rewrite IH by assumption. simpl.
    rewrite <- app_assoc. reflexivity.
Qed.

Lemma first_match_exists (data : string) (rs : list Recognizer) (last : Recognizer) :
  recognizer_match last data = true ->
  exists skipped r later,
    rs ++ [last] = skipped ++ r :: later /\
    Forall (fun r' => recognizer_match r' data = false) skipped /\
    recognizer_match r data = true.
Proof.
  intros Hlast. induction rs as [|a rs IH]; simpl.
  - exists [], last, []. auto.
  - destruct (recognizer_match a data) eqn:Ea.
    + exists [], a, (rs ++ [last]). auto.
    + destruct IH as (skipped & r & later & Heq & Hno & Hyes).
      exists (a :: skipped), r, later. rewrite Heq. auto.
Qed.

(** C1: on every raw message the dispatch loop evaluates the recognizers
    in their declared order up to the first one whose predicate matches,
    invokes that recognizer's handler and no other, and evaluates no
    later recognizer: the loop's result and world are those of that
    handler, run on the message after the predicates up to it were asked,
    with False turned into the stop of the listener and any other outcome
    into None.  The catch-all is the one chosen only when none of the four
    recognizers ahead of it matches. *)
Theorem C1_dispatch_first_match_wins (data : string) (w : World) :
  exists skipped r later,
    recognizers = skipped ++ r :: later /\
    Forall (fun r' => recognizer_match r' data = false) skipped /\
    recognizer_match r data = true /\
    dispatch recognizers data w
    = match handle_message r data (asked (skipped ++ [r]) w) with
      | (Ok outcome, w1) =>
          if is_False outcome then (Ok (PyBool false), set_running false w1)
          else (Ok PyNone, w1)
      | (Raise e, w1) => (Raise e, w1)
      end /\
    handle_message r data (asked (skipped ++ [r]) w)
    = match handler_method r with
      | parse_status_and_dispatch_h => parse_status_and_dispatch data
      | parse_limit_and_dispatch_h => parse_limit_and_dispatch data
      | parse_warning_and_dispatch_h => parse_warning_and_dispatch data
      | on_disconnect_h => on_disconnect data
      | on_unrecognized_h => on_unrecognized data
      end (add_call (CallHandle r) (asked (skipped ++ [r]) w)) /\
    calls (dispatch recognizers data w).2
    = calls w ++ map CallMatch skipped ++ [CallMatch r; CallHandle r] /\
    (r = catch_all_recognizer ->
     Forall (fun r' => recognizer_match r' data = false) specific_recognizers).
Proof.
  destruct (first_match_exists data specific_recognizers
              (catch_all_recognizer) eq_refl)
    as (skipped & r & later & Heq & Hno & Hyes).
  change (specific_recognizers ++ [catch_all_recognizer])
    with recognizers in Heq.
  exists skipped, r, later. repeat split; try assumption.
  - rewrite Heq. apply dispatch_first_match; assumption.
  - rewrite Heq. apply dispatch_calls; assumption.
  - intros ->. unfold recognizers in Heq.
    destruct skipped as [|a [|b [|c [|d [|e rest]]]]]; simpl in Heq;
      try discriminate Heq.
    + injection Heq as <- <- <- <- _. exact Hno.
    + injection Heq as _ _ _ _ _ Hnil. destruct rest; discriminate Hnil.
Qed.

End Dispatch.

(** ** The stop policy *)

Section StopPolicy.

Context `{Collaborators}.

(** The stop check never raises; a negative answer leaves the world as
    it was, a positive one adds a debug record. *)
Lemma should_stop_cases (w : World) :
  should_stop w = (Ok false, w) \/
  exists l, should_stop w = (Ok true, add_logged l w).
Proof.
  unfold should_stop, count_stop, time_time, log, bind, gets, modify, ret. simpl.
  destruct (truthy_int (duration (opts w))).
  - destruct (truthy_int (first_message_received w)).
    + destruct (now w - int_value (first_message_received w) >=? int_value (duration (opts w)));
        simpl; eauto.
    + destruct (truthy_int (max_tweets (opts w)) && (status_count w >? int_value (max_tweets (opts w))));
        simpl; eauto.
  - destruct (truthy_int (max_tweets (opts w)) && (status_count w >? int_value (max_tweets (opts w))));
      simpl; eauto.
Qed.

(** Without a duration limit, or before the first message, the answer is
    the count test. *)
Lemma should_stop_count_only (w : World) (m : Z) :
  max_tweets (opts w) = Some m -> m <> 0 ->
  truthy_int (duration (opts w)) && truthy_int (first_message_received w) = false ->
  (should_stop w).1 = Ok (status_count w >? m).
Proof.
  intros Hm Hnz Hd.
  assert (truthy_int (max_tweets (opts w)) = true) as Ht.
  { rewrite Hm. simpl. apply negb_true_iff, Z.eqb_neq, Hnz. }
  unfold should_stop, count_stop, time_time, log, bind, gets, modify, ret. simpl.
  destruct (truthy_int (duration (opts w))); simpl in Hd |- *;
    [rewrite Hd|]; rewrite Ht, Hm; simpl;
    destruct (status_count w >? m); reflexivity.
Qed.

End StopPolicy.

(** C2: with a count limit of 2 and 3 records matched, the stop check
    still answers false while a configured duration limit has not elapsed:
    the duration branch returns its own flag and the count test is not
    reached.  With the duration limit removed, the same state stops. *)
Theorem C2_count_test_skipped_under_duration :
  (should_stop over_count_world).1 = Ok false /\
  (should_stop
     (mkWorld (mkOpts None None (Some 2) None ["en"] false false)
              true (Some 100) 3 None 111 [] [] [] [])).1 = Ok true /\
  (should_stop
     (mkWorld (mkOpts None None (Some 2) None ["en"] false false)
              true (Some 100) 2 None 111 [] [] [] [])).1 = Ok false.
Proof. repeat split; reflexivity. Qed.

(** ** Duration specifications *)

(** C3: the parser maps "5", "5m" and "5d" to 5, 300 and 432000 seconds and
    rejects "abc" with the argument error; "5h" is rejected with the same
    error instead of giving 18000, because the code class of the pattern
    has no [h], although the [secs] table has the hour entry. *)
Theorem C3_duration_type_examples :
  duration_type "5" = Ok 5 /\
  duration_type "5m" = Ok 300 /\
  duration_type "5d" = Ok 432000 /\
  duration_type "abc"
  = Raise (ArgumentTypeError ("Unexpected duration type " +:+ PyStr.dq +:+ "abc" +:+ PyStr.dq +:+ ".")) /\
  duration_type "5h"
  = Raise (ArgumentTypeError ("Unexpected duration type " +:+ PyStr.dq +:+ "5h" +:+ PyStr.dq +:+ ".")) /\
  secs !! "h" = Some 3600 /\
  is_code_char "h" = false.
Proof. repeat split; vm_compute; reflexivity. Qed.

(** ** Location macros *)




(** ** The language filter *)

Lemma split_not_nil (sep : ascii) (s : string) : PyStr.split sep s <> [].
Proof.
  induction s as [|c s IH]; simpl; [discriminate|].
  destruct (Ascii.eqb c sep); [discriminate|].
  destruct (PyStr.split sep s); [contradiction|discriminate].
Qed.

Lemma parse_user_lang_empty (arg : option string) :
  parse_user_lang arg = [] <-> exists a, arg = Some a /\ In "*" (csv_args a).
Proof.
  unfold parse_user_lang. split.
  - destruct arg as [a|].
    + change (default "en" (Some a)) with a.
      intros Hp. exists a. split; [reflexivity|].
      destruct (csv_args a) as [|x xs] eqn:E; [exfalso; exact (split_not_nil _ _ E)|].
      destruct (existsb (String.eqb "*") (x :: xs)) eqn:Ex; [|discriminate Hp].
      apply existsb_exists in Ex. destruct Ex as (y & Hin & Hy).
      apply String.eqb_eq in Hy. subst y. exact Hin.
    + vm_compute. discriminate.
  - intros (a & -> & Hin). change (default "en" (Some a)) with a.
    destruct (csv_args a) as [|x xs] eqn:E; [reflexivity|].
    assert (existsb (String.eqb "*") (x :: xs) = true) as ->; [|reflexivity].
    apply existsb_exists. exists "*". split; [exact Hin|apply String.eqb_refl].
Qed.

Section LanguageFilter.

Context `{Collaborators}.

Lemma is_retweet_world (tweet : pyval) : preserves (fun w => w) (is_retweet tweet).
Proof. unfold is_retweet. frame. Qed.

Lemma tweet_matchp_world (tweet : pyval) : preserves (fun w => w) (tweet_matchp tweet).
Proof. unfold tweet_matchp. frame. apply is_retweet_world. Qed.

Lemma report_lag_check_preserves {B : Type} (f : World -> B) (data : string) :
  (forall r w, f (add_logged r w) = f w) -> preserves f (report_lag_check data).
Proof.
  intros Hf. unfold report_lag_check. frame.
  all: try (apply log_preserves; exact Hf).
Qed.

(** A record that does not pass [tweet_matchp] writes nothing. *)
Lemma unmatched_status_not_written (data : string) (w : World) (decoded tweet : pyval) :
  json_loads data = Ok decoded ->
  Status_parse decoded = Ok tweet ->
  (tweet_matchp tweet w).1 <> Ok true ->
  stdout (parse_status_and_dispatch data w).2 = stdout w.
Proof.
  intros Hd Hs Hm. unfold parse_status_and_dispatch, bind at 1, lift. rewrite Hd.
  unfold bind at 1. rewrite Hs. unfold bind at 1.
  pose proof (tweet_matchp_world tweet w) as Hw.
  destruct (tweet_matchp tweet w) as [[[|]|e] w'] eqn:E; simpl in Hw, Hm; subst w'.
  - contradiction.
  - unfold bind at 1, ret. unfold bind.
    pose proof (report_lag_check_preserves stdout data (fun _ _ => eq_refl) w) as Hl.
    destruct (report_lag_check data w) as [[u|e] w']; simpl in *; exact Hl.
  - reflexivity.
Qed.

(** C10: with no language option the allow-list is exactly ["en"]; a
    status whose user language is anything else does not match and is not
    written to the output; the list is empty, and every language allowed,
    exactly when the option was given and one of its comma-separated items
    is "*". *)
Theorem C10_default_language_is_en :
  parse_user_lang None = ["en"] /\
  (forall arg : option string,
     parse_user_lang arg = [] <-> exists a, arg = Some a /\ In "*" (csv_args a)) /\
  (forall (w : World) (data : string) (decoded tweet user lang : pyval),
     user_lang (opts w) = parse_user_lang None ->
     json_loads data = Ok decoded ->
     Status_parse decoded = Ok tweet ->
     getattr tweet "user" = Ok user ->
     getattr user "lang" = Ok lang ->
     lang <> PyStr "en" ->
     (tweet_matchp tweet w).1 <> Ok true /\
     stdout (parse_status_and_dispatch data w).2 = stdout w) /\
  (forall (w : World) (tweet : pyval),
     user_lang (opts w) = [] ->
     no_retweets (opts w) = false ->
     tweet_matchp tweet w = (Ok true, w)).
Proof.
  split; [reflexivity|]. split; [exact parse_user_lang_empty|]. split.
  - intros w data decoded tweet user lang Hl Hd Hs Hu Hg Hne.
    assert ((tweet_matchp tweet w).1 <> Ok true) as Hm.
    { unfold tweet_matchp, bind at 1, gets.
      change (parse_user_lang None) with ["en"] in Hl.
      unfold bind at 1.
      assert (exists r, (if no_retweets (opts w) then is_retweet tweet else ret false) w = (r, w))
        as [r Hr].
      { destruct (no_retweets (opts w)).
        - pose proof (is_retweet_world tweet w) as Hw.
          destruct (is_retweet tweet w) as [r w']. simpl in Hw. subst w'. eauto.
        - eexists. reflexivity. }
      rewrite Hr. destruct r as [[|]|e]; simpl; try discriminate.
      rewrite Hl. unfold bind at 1, lift. rewrite Hu.
      unfold bind at 1. rewrite Hg.
      destruct lang as [| | |l| | |]; simpl; try discriminate.
      destruct (String.eqb l "en") eqn:El; simpl; [|discriminate].
      apply String.eqb_eq in El. subst l. contradiction. }
    split; [exact Hm|].
    eapply unmatched_status_not_written; eassumption.
  - intros w tweet Hl Hn. unfold tweet_matchp, bind, gets, ret. rewrite Hn, Hl.
    reflexivity.
Qed.

End LanguageFilter.

Lemma C10_french_status_excluded :
  (exists tweet, tweet_matchp tweet (fresh_world default_opts) = (Ok false, fresh_world default_opts)) /\
  stdout (parse_status_and_dispatch french_status (fresh_world default_opts)).2 = [].
Proof.
  split.
  - eexists (PyObj [("user", PyObj [("lang", PyStr "fr")])]). reflexivity.
  - apply (proj1 (proj2 (proj2 (C10_default_language_is_en)))
             (fresh_world default_opts) french_status
             (PyDict [("user", PyDict [("lang", PyStr "fr")]); ("text", PyStr "bonjour");
                      ("id_str", PyStr "7"); ("in_reply_to_user_id_str", PyNone)])
             (PyObj [("user", PyObj [("lang", PyStr "fr")]); ("text", PyStr "bonjour");
                     ("id_str", PyStr "7"); ("in_reply_to_user_id_str", PyNone)])
             (PyObj [("lang", PyStr "fr")]) (PyStr "fr"));
      first [reflexivity | discriminate].
Defined.

(** ** Messages that fail to decode *)

Section DecodeFailure.

Context `{Collaborators}.

Lemma on_data_eq (data : string) (w : World) :
  on_data data w
  = match should_stop (entry_world w) with
    | (Ok true, w1) => (Ok (PyBool false), set_running false w1)
    | (Ok false, w1) => dispatch recognizers data w1
    | (Raise e, w1) => (Raise e, w1)
    end.
Proof.
  unfold on_data, entry_world, bind, gets, modify, ret, time_time.
  destruct (truthy_int (first_message_received w)); simpl;
    match goal with
    | |- context [should_stop ?x] => destruct (should_stop x) as [[[|]|e] w1]
    end; reflexivity.
Qed.

Lemma on_data_cases (data : string) (w : World) :
  on_data data w = dispatch recognizers data (entry_world w) \/
  exists l, on_data data w
            = (Ok (PyBool false), set_running false (add_logged l (entry_world w))).
Proof.
  rewrite on_data_eq.
  destruct (should_stop_cases (entry_world w)) as [-> | [l ->]].
  - left. reflexivity.
  - right. exists l. reflexivity.
Qed.




Lemma warning_decode_failure (data : string) (w : World) :
  json_loads data = Raise JSONDecodeError ->
  parse_warning_and_dispatch data w
  = (Ok (PyBool false), add_logged (parse_failure_record data) w).
Proof.
  intros Hd. unfold parse_warning_and_dispatch, try_except, bind at 1, lift.
  rewrite Hd. reflexivity.
Qed.


End DecodeFailure.

(** ** The session loop *)

Section SessionLoop.

Context `{Collaborators}.

Lemma stream_filter_message (t : Z) (data : string) (rest : list transport_event) (w : World) :
  stream_filter (Message t data :: rest) w
  = match on_data data (set_now t w) with
    | (Ok r, w1) => if is_False r then (Ok (), w1) else stream_filter rest w1
    | (Raise e, w1) => (Raise e, w1)
    end.
Proof.
  simpl. unfold bind, modify.
  destruct (on_data data (set_now t w)) as [[r|e] w1]; [|reflexivity].
  destruct (is_False r); reflexivity.
Qed.

Lemma stream_filter_status (code : Z) (rest : list transport_event) (w : World) :
  stream_filter (HttpStatus code :: rest) w
  = match on_error code w with
    | (Ok r, w1) => if is_False r then (Ok (), w1) else stream_filter rest w1
    | (Raise e, w1) => (Raise e, w1)
    end.
Proof.
  simpl. unfold bind.
  destruct (on_error code w) as [[r|e] w1]; [|reflexivity].
  destruct (is_False r); reflexivity.
Qed.

(** One pass of the loop body, by what the call of the stream did. *)
Lemma session_iteration_eq (events : list transport_event) (w : World) :
  session_iteration events w
  = match stream_filter events (add_logged (mkLog DEBUG "streamer.filter(%s)" []) w) with
    | (Ok _, w1) =>
        (Ok (), sleep_if_running
                  (add_logged (mkLog DEBUG "Returned from streaming..." []) w1))
    | (Raise IOError, w1) =>
        (Ok (), sleep_if_running
                  (add_logged (mkLog EXCEPTION "Caught IOError" [])
                     (if terminate_on_error (opts w1) then set_running false w1 else w1)))
    | (Raise KeyboardInterrupt, w1) =>
        (Ok (), sleep_if_running (set_running false w1))
    | (Raise (TypeError msg), w1) =>
        (Ok (), sleep_if_running
                  (add_logged (mkLog EXCEPTION "Unexpected exception." [])
                     (set_running false
                        (if PyStr.contains "stall_warnings" msg
                         then add_logged (mkLog WARN stall_warnings_notice []) w1
                         else w1))))
    | (Raise _, w1) =>
        (Ok (), sleep_if_running
                  (add_logged (mkLog EXCEPTION "Unexpected exception." [])
                     (set_running false w1)))
    end.
Proof.
  unfold session_iteration, sleep_if_running.
  unfold bind at 1. unfold try_except at 1. unfold bind at 1.
  unfold try_except at 1. unfold bind at 1. unfold log at 1, modify at 1.
  destruct (stream_filter events _) as [[u|e] w1].
  - unfold log, modify, bind, gets, sleep, ret. simpl.
    destruct (running w1); reflexivity.
  - destruct e; unfold log, modify, bind, gets, sleep, ret, raise; simpl;
      try (destruct (running w1); reflexivity).
    + destruct (PyStr.contains "stall_warnings" msg); reflexivity.
    + destruct (terminate_on_error (opts w1)); simpl;
        try destruct (running w1); reflexivity.
Qed.

Lemma loop_step (events : list transport_event) (rest : list (list transport_event))
      (w : World) :
  running w = true ->
  process_tweets_loop (events :: rest) w
  = process_tweets_loop rest (session_iteration events w).2.
Proof.
  intros Hr. simpl. unfold bind at 1, gets. rewrite Hr. unfold bind at 1.
  rewrite session_iteration_eq.
  destruct (stream_filter events _) as [[u|e] w1]; [reflexivity|].
  destruct e; reflexivity.
Qed.

Lemma loop_exited (attempts : list (list transport_event)) (w : World) :
  running w = false -> process_tweets_loop attempts w = (Ok Exited, w).
Proof.
  intros Hr. destruct attempts; simpl; unfold bind, gets; rewrite Hr; reflexivity.
Qed.

End SessionLoop.

Section MalformedMessages.

Context `{Collaborators}.

Lemma entry_world_frame (w : World) :
  slept (entry_world w) = slept w /\ stdout (entry_world w) = stdout w.
Proof.
  unfold entry_world. destruct (truthy_int (first_message_received w)); split; reflexivity.
Qed.



(** C5: when the warning handler's decoding fails the handler
    logs the exception and returns False; for a message that the warning
    recognizer takes, [on_data] then returns False with running set to
    false, which stops the stream. *)
Theorem C5_warning_decode_failure_stops (data : string) (w : World) :
  json_loads data = Raise JSONDecodeError ->
  recognizer_match status_recognizer data = false ->
  recognizer_match limit_recognizer data = false ->
  recognizer_match warning_recognizer data = true ->
  parse_warning_and_dispatch data w
  = (Ok (PyBool false), add_logged (parse_failure_record data) w) /\
  exists w', on_data data w = (Ok (PyBool false), w') /\ running w' = false.
Proof.
  intros Hd Hs Hl Hw. split; [apply warning_decode_failure, Hd|].
  destruct (on_data_cases data w) as [-> | [l ->]].
  - unfold recognizers. rewrite dispatch_cons, Hs, dispatch_cons, Hl, dispatch_cons, Hw.
    rewrite handle_message_eq. cbn [handler_method warning_recognizer].
    rewrite warning_decode_failure by exact Hd. cbn [is_False].
    eexists. split; reflexivity.
  - eexists. split; reflexivity.
Qed.

End MalformedMessages.



(** A truncated warning message makes [on_data] return False and stops the
    listener. *)
Lemma C5_truncated_warning_stops :
  json_loads truncated_warning = Raise JSONDecodeError /\
  on_data truncated_warning (fresh_world default_opts)
  = (Ok (PyBool false),
     (on_data truncated_warning (fresh_world default_opts)).2) /\
  running (on_data truncated_warning (fresh_world default_opts)).2 = false /\
  running
    (process_tweets_loop [[Message 5 truncated_warning]] (fresh_world default_opts)).2
  = false.
Proof. repeat split; vm_compute; reflexivity. Qed.

Lemma C5_truncated_warning_returns_false :
  exists w',
    on_data truncated_warning (fresh_world default_opts) = (Ok (PyBool false), w') /\
    running w' = false.
Proof.
  apply (C5_warning_decode_failure_stops truncated_warning (fresh_world default_opts));
    vm_compute; reflexivity.
Defined.

Section TransportErrors.

Context `{Collaborators}.

Lemma io_retry_iter_frame (n : nat) (w : World) :
  running (Nat.iter n io_retry w) = running w /\
  opts (Nat.iter n io_retry w) = opts w /\
  slept (Nat.iter n io_retry w) = slept w ++ replicate n 5.
Proof.
  induction n as [|n (Hr & Ho & Hs)]; simpl.
  - rewrite app_nil_r. auto.
  - repeat split; [exact Hr|exact Ho|].
    rewrite Hs, <- app_assoc.
    change [5] with (replicate 1 5). rewrite <- replicate_add.
    rewrite Nat.add_1_r. reflexivity.
Qed.

(** An attempt that ends in [IOError] is retried when terminate-on-error
    is off. *)
Lemma io_error_retried (rest : list transport_event) (w : World) :
  running w = true ->
  terminate_on_error (opts w) = false ->
  session_iteration (Failure IOError :: rest) w = (Ok (), io_retry w).
Proof.
  intros Hr Ht. rewrite session_iteration_eq. simpl. unfold raise.
  cbn [opts add_logged]. rewrite Ht. unfold sleep_if_running.
  cbn [running add_logged]. rewrite Hr. reflexivity.
Qed.

Lemma io_errors_retried_forever (attempts : list (list transport_event)) :
  forall w : World,
    running w = true ->
    terminate_on_error (opts w) = false ->
    Forall (fun a => exists rest, a = Failure IOError :: rest) attempts ->
    process_tweets_loop attempts w
    = (Ok AwaitingTransport, Nat.iter (length attempts) io_retry w).
Proof.
  induction attempts as [|a attempts IH]; intros w Hr Ht Hall.
  - simpl. unfold bind, gets. rewrite Hr. reflexivity.
  - inversion Hall as [|? ? [rest ->] Hall']; subst.
    rewrite loop_step by exact Hr.
    rewrite io_error_retried by assumption. cbn [snd].
    rewrite IH by (try assumption; reflexivity).
    cbn [length]. rewrite Nat.iter_succ_r. reflexivity.
Qed.

(** C8: when a call of the stream ends in an [IOError], the
    session terminates if terminate-on-error is set; otherwise the error is
    logged, the loop sleeps 5 seconds and calls the stream again, and it
    does so for any number of failed attempts in a row, still running.  A
    response status other than 401 stops the session whatever
    terminate-on-error says, without a sleep; status 401 leaves [running]
    as it was and does not stop the stream. *)
Theorem C8_transport_errors (w : World) :
  (forall (rest : list transport_event) (more : list (list transport_event)),
     running w = true ->
     terminate_on_error (opts w) = true ->
     exists w',
       process_tweets_loop ((Failure IOError :: rest) :: more) w = (Ok Exited, w') /\
       running w' = false /\ slept w' = slept w) /\
  (forall attempts : list (list transport_event),
     running w = true ->
     terminate_on_error (opts w) = false ->
     Forall (fun a => exists rest, a = Failure IOError :: rest) attempts ->
     process_tweets_loop attempts w
     = (Ok AwaitingTransport, Nat.iter (length attempts) io_retry w) /\
     running (Nat.iter (length attempts) io_retry w) = true /\
     slept (Nat.iter (length attempts) io_retry w)
     = slept w ++ replicate (length attempts) 5) /\
  (forall (code : Z) (rest : list transport_event) (more : list (list transport_event)),
     running w = true ->
     code <> 401 ->
     exists w',
       process_tweets_loop ((HttpStatus code :: rest) :: more) w = (Ok Exited, w') /\
       running w' = false /\ slept w' = slept w) /\
  (exists w', on_error 401 w = (Ok PyNone, w') /\ running w' = running w).
Proof.
  repeat split.
  - intros rest more Hr Ht. rewrite loop_step by exact Hr.
    rewrite session_iteration_eq. simpl. unfold raise.
    cbn [opts add_logged]. rewrite Ht. unfold sleep_if_running. cbn.
    eexists. split; [apply loop_exited; reflexivity|]. split; reflexivity.
  - apply io_errors_retried_forever; assumption.
  - destruct (io_retry_iter_frame (length attempts) w) as (Hr & _ & _). congruence.
  - destruct (io_retry_iter_frame (length attempts) w) as (_ & _ & Hs). exact Hs.
  - intros code rest more Hr Hc. rewrite loop_step by exact Hr.
    rewrite session_iteration_eq, stream_filter_status.
    unfold on_error, log, modify, bind, ret.
    assert (negb (code =? 401) = true) as ->.
    { apply negb_true_iff, Z.eqb_neq, Hc. }
    cbn. eexists. split; [apply loop_exited; reflexivity|]. split; reflexivity.
  - eexists. split; reflexivity.
Qed.

End TransportErrors.

(** A response status of 500 ends the session although terminate-on-error
    is off, with no sleep and no retry; and with terminate-on-error on, a
    status of 401 does not end it. *)
Lemma C8_error_status_ignores_terminate_flag :
  terminate_on_error default_opts = false /\
  process_tweets_loop [[HttpStatus 500]; [HttpStatus 500]] (fresh_world default_opts)
  = (Ok Exited,
     (process_tweets_loop [[HttpStatus 500]] (fresh_world default_opts)).2) /\
  running (process_tweets_loop [[HttpStatus 500]] (fresh_world default_opts)).2 = false /\
  slept (process_tweets_loop [[HttpStatus 500]] (fresh_world default_opts)).2 = [] /\
  terminate_on_error terminating_opts = true /\
  (process_tweets_loop [[HttpStatus 401]] (fresh_world terminating_opts)).1
  = Ok AwaitingTransport /\
  running (process_tweets_loop [[HttpStatus 401]] (fresh_world terminating_opts)).2 = true.
Proof. repeat split; vm_compute; reflexivity. Qed.

Lemma C8_three_io_errors_retried :
  process_tweets_loop [[Failure IOError]; [Failure IOError]; [Failure IOError]]
    (fresh_world default_opts)
  = (Ok AwaitingTransport, Nat.iter 3 io_retry (fresh_world default_opts)) /\
  running (Nat.iter 3 io_retry (fresh_world default_opts)) = true /\
  slept (Nat.iter 3 io_retry (fresh_world default_opts)) = [] ++ [5; 5; 5].
Proof.
  apply (proj1 (proj2 (C8_transport_errors (fresh_world default_opts)))
           [[Failure IOError]; [Failure IOError]; [Failure IOError]]);
    [reflexivity | reflexivity |].
  repeat constructor; eexists; reflexivity.
Defined.

(** ** The status handler *)

Section StatusHandler.

Context `{Collaborators}.

Lemma should_stop_preserves {B : Type} (f : World -> B) :
  (forall r w, f (add_logged r w) = f w) -> preserves f should_stop.
Proof.
  intros Hf w. destruct (should_stop_cases w) as [-> | [l ->]]; simpl; auto.
Qed.

Lemma emit_status_preserves {B : Type} (f : World -> B) (status : pyval) (data : string) :
  (forall r w, f (add_logged r w) = f w) ->
  (forall b w, f (set_running b w) = f w) ->
  (forall o w, f (add_stdout o w) = f w) ->
  preserves f (emit_status status data).
Proof.
  intros Hl Hr Ho. unfold emit_status.
  apply preserves_bind; [frame|]. intros o.
  destruct (fields o) as [[|fld fs]|].
  - apply preserves_bind; [apply preserves_modify; intros; apply Ho|]. intros; frame.
  - apply preserves_try_except.
    + apply preserves_bind; [apply build_row_preserves; assumption|].
      intros [v|row]; [frame|].
      apply preserves_bind; [frame|]. intros _.
      apply preserves_bind; [apply preserves_modify; intros; apply Ho|]. intros; frame.
    + intros e h Hh. destruct e; inversion Hh; subst.
      apply preserves_bind; [apply log_preserves; exact Hl|]. intros; frame.
  - apply preserves_bind; [apply preserves_modify; intros; apply Ho|]. intros; frame.
Qed.

(** The handler on a record that decodes and matches: the counter goes up,
    then the stop test decides between stopping and the output step. *)
Lemma matched_status_eq (data : string) (w : World) (decoded status : pyval) :
  json_loads data = Ok decoded ->
  Status_parse decoded = Ok status ->
  (tweet_matchp status w).1 = Ok true ->
  parse_status_and_dispatch data w
  = match should_stop (set_status_count (status_count w + 1) w) with
    | (Ok true, w1) => (Ok (PyBool false), set_running false w1)
    | (Ok false, w1) =>
        match emit_status status data w1 with
        | (Ok (Return v), w2) => (Ok v, w2)
        | (Ok (Fall _), w2) => (report_lag_check data ;; ret PyNone) w2
        | (Raise e, w2) => (Raise e, w2)
        end
    | (Raise e, w1) => (Raise e, w1)
    end.
Proof.
  intros Hd Hs Hm. unfold parse_status_and_dispatch.
  unfold bind at 1, lift. rewrite Hd. unfold bind at 1. rewrite Hs.
  unfold bind at 1.
  pose proof (tweet_matchp_world status w) as Hw.
  destruct (tweet_matchp status w) as [r w']. simpl in Hw, Hm. subst w' r.
  unfold bind at 1. unfold bind at 1. unfold gets at 1.
  unfold bind at 1. unfold modify at 1. unfold bind at 1.
  destruct (should_stop _) as [[[|]|e] w1]; try reflexivity.
  destruct (emit_status status data w1) as [[[v|u]|e] w2]; reflexivity.
Qed.

(** C7: for every matched status record the counter is
    incremented first, before the stop test and in both of its branches;
    if the stop test, run on the incremented counter, says stop, the
    handler returns False with running set to false and writes nothing. *)
Theorem C7_counter_incremented_before_stop_test
        (data : string) (w : World) (decoded status : pyval) :
  json_loads data = Ok decoded ->
  Status_parse decoded = Ok status ->
  (tweet_matchp status w).1 = Ok true ->
  status_count (parse_status_and_dispatch data w).2 = status_count w + 1 /\
  ((should_stop (set_status_count (status_count w + 1) w)).1 = Ok true ->
   (parse_status_and_dispatch data w).1 = Ok (PyBool false) /\
   running (parse_status_and_dispatch data w).2 = false /\
   stdout (parse_status_and_dispatch data w).2 = stdout w).
Proof.
  intros Hd Hs Hm. rewrite (matched_status_eq data w decoded status Hd Hs Hm).
  set (w0 := set_status_count (status_count w + 1) w).
  destruct (should_stop_cases w0) as [-> | [l ->]].
  - split; [|simpl; discriminate].
    pose proof (emit_status_preserves status_count status data
                  (fun _ _ => eq_refl) (fun _ _ => eq_refl) (fun _ _ => eq_refl) w0) as He.
    destruct (emit_status status data w0) as [[[v|u]|e] w2]; simpl in He |- *; try exact He.
    unfold bind.
    pose proof (report_lag_check_preserves status_count data (fun _ _ => eq_refl) w2) as Hl.
    destruct (report_lag_check data w2) as [[u'|e] w3]; simpl in Hl |- *; congruence.
  - split; [reflexivity|]. intros _. repeat split.
Qed.

End StatusHandler.

(** With one record already matched and a limit of one, the next matched
    record is not written, and yet the counter goes from 1 to 2. *)
Lemma C7_counter_incremented_in_stop_branch :
  status_count one_matched_world = 1 /\
  (parse_status_and_dispatch english_status one_matched_world).1 = Ok (PyBool false) /\
  running (parse_status_and_dispatch english_status one_matched_world).2 = false /\
  stdout (parse_status_and_dispatch english_status one_matched_world).2 = [] /\
  status_count (parse_status_and_dispatch english_status one_matched_world).2 = 2.
Proof. repeat split; vm_compute; reflexivity. Qed.

Lemma C7_second_record_counted :
  status_count (parse_status_and_dispatch english_status one_matched_world).2 = 1 + 1 /\
  (parse_status_and_dispatch english_status one_matched_world).1 = Ok (PyBool false) /\
  running (parse_status_and_dispatch english_status one_matched_world).2 = false /\
  stdout (parse_status_and_dispatch english_status one_matched_world).2 = [].
Proof.
  destruct (@C7_counter_incremented_before_stop_test ref_collaborators
              english_status one_matched_world
              (PyDict [("user", PyDict [("lang", PyStr "en")]); ("text", PyStr "hello");
                       ("id_str", PyStr "8"); ("in_reply_to_user_id_str", PyNone)])
              (PyObj [("user", PyObj [("lang", PyStr "en")]); ("text", PyStr "hello");
                      ("id_str", PyStr "8"); ("in_reply_to_user_id_str", PyNone)])
              eq_refl eq_refl eq_refl) as [Hcount Hstop].
  split; [exact Hcount|]. apply Hstop. reflexivity.
Defined.

(** ** Fields that do not resolve *)

Section MissingField.

Context `{Collaborators}.

Lemma build_row_resolved (status : pyval) (f : string) (v : pyval)
      (fs : list string) (csvrow : list pyval) (w : World) :
  resolves status f v ->
  build_row status (f :: fs) csvrow w
  = build_row status fs (csvrow ++ [encode_utf8 v]) w.
Proof.
  intros Hv. unfold resolves in Hv. simpl.
  unfold bind at 1, try_except, bind at 1, lift, resolved. rewrite Hv. reflexivity.
Qed.

Lemma build_row_resolved_prefix (status : pyval) (pre : list string) (vals : list pyval) :
  Forall2 (resolves status) pre vals ->
  forall (rest : list string) (csvrow : list pyval) (w : World),
    build_row status (pre ++ rest) csvrow w
    = build_row status rest (csvrow ++ map encode_utf8 vals) w.
Proof.
  induction 1 as [|f v pre vals Hv _ IH]; intros rest csvrow w.
  - simpl. rewrite app_nil_r. reflexivity.
  - cbn [app]. rewrite (build_row_resolved status f v) by exact Hv.
    rewrite IH. cbn [map]. rewrite <- app_assoc. reflexivity.
Qed.

Lemma build_row_missing_continue (status : pyval) (f : string) (o : Opts)
      (fs : list string) (csvrow : list pyval) (w : World) :
  resolve_with_default status f PyNone = None ->
  global_opts w = Some o ->
  terminate_on_error o = false ->
  build_row status (f :: fs) csvrow w
  = build_row status fs (csvrow ++ [MISSING_FIELD_VALUE]) w.
Proof.
  intros Hv Hg Ht. simpl.
  unfold bind at 1, try_except, bind at 1, lift, resolved. rewrite Hv.
  unfold bind at 1, gets. rewrite Hg, Ht. reflexivity.
Qed.

Lemma build_row_missing_terminate (status : pyval) (f : string) (o : Opts) (id_str : pyval)
      (fs : list string) (csvrow : list pyval) (w : World) :
  resolve_with_default status f PyNone = None ->
  global_opts w = Some o ->
  terminate_on_error o = true ->
  getattr status "id_str" = Ok id_str ->
  build_row status (f :: fs) csvrow w
  = (Ok (Return (PyBool false)),
     set_running false (add_logged (field_not_found_record f id_str) w)).
Proof.
  intros Hv Hg Ht Hi. simpl.
  unfold bind at 1, try_except, bind at 1, lift, resolved. rewrite Hv.
  unfold bind at 1, gets. rewrite Hg, Ht.
  unfold bind at 1. rewrite Hi. reflexivity.
Qed.

Lemma build_row_all_resolved (status : pyval) (fs : list string) (vals : list pyval)
      (csvrow : list pyval) (w : World) :
  Forall2 (resolves status) fs vals ->
  build_row status fs csvrow w = (Ok (Fall (csvrow ++ map encode_utf8 vals)), w).
Proof.
  intros Hall.
  rewrite <- (app_nil_r fs), (build_row_resolved_prefix status fs vals Hall).
  reflexivity.
Qed.

Lemma emit_status_fields (status : pyval) (data : string) (fs : list string) (w : World) :
  fields (opts w) = Some fs ->
  fs <> [] ->
  emit_status status data w
  = match build_row status fs [] w with
    | (Ok (Return v), w1) => (Ok (Return v), w1)
    | (Ok (Fall csvrow), w1) =>
        match csv_writerow csvrow with
        | Ok _ => (Ok (Fall ()), add_stdout (CsvRow csvrow) w1)
        | Raise UnicodeEncodeError =>
            (Ok (Fall ()), add_logged (mkLog WARN (List.last fs "") []) w1)
        | Raise e => (Raise e, w1)
        end
    | (Raise UnicodeEncodeError, w1) =>
        (Ok (Fall ()), add_logged (mkLog WARN (List.last fs "") []) w1)
    | (Raise e, w1) => (Raise e, w1)
    end.
Proof.
  intros Hf Hne. unfold emit_status, bind at 1, gets. rewrite Hf.
  destruct fs as [|f fs]; [contradiction|].
  unfold try_except, bind at 1.
  destruct (build_row status (f :: fs) [] w) as [[[v|csvrow]|e] w1].
  - reflexivity.
  - unfold bind at 1, lift.
    destruct (csv_writerow csvrow) as [u|e]; [reflexivity|].
    destruct e; reflexivity.
  - destruct e; reflexivity.
Qed.

(** C6: a configured field that does not resolve on the status, after
    fields that do.  With terminate-on-error the output step returns False
    with running set to false, the error logged and nothing written.
    Without it the column takes the empty string and the loop goes on with
    the remaining fields; when those resolve and the writer accepts the
    row, the row written has the empty string in that column. *)
Theorem C6_missing_field
        (status : pyval) (data : string) (w : World)
        (pre : list string) (f : string) (post : list string) (vals : list pyval) :
  fields (opts w) = Some (pre ++ f :: post) ->
  global_opts w = Some (opts w) ->
  Forall2 (resolves status) pre vals ->
  resolve_with_default status f PyNone = None ->
  (terminate_on_error (opts w) = true ->
   forall id_str, getattr status "id_str" = Ok id_str ->
     emit_status status data w
     = (Ok (Return (PyBool false)),
        set_running false (add_logged (field_not_found_record f id_str) w)) /\
     running (emit_status status data w).2 = false /\
     stdout (emit_status status data w).2 = stdout w) /\
  (terminate_on_error (opts w) = false ->
   (forall csvrow,
      build_row status (pre ++ f :: post) csvrow w
      = build_row status post (csvrow ++ map encode_utf8 vals ++ [PyStr ""]) w) /\
   (forall vals',
      Forall2 (resolves status) post vals' ->
      csv_writerow (map encode_utf8 vals ++ [PyStr ""] ++ map encode_utf8 vals') = Ok () ->
      emit_status status data w
      = (Ok (Fall ()),
         add_stdout (CsvRow (map encode_utf8 vals ++ [PyStr ""] ++ map encode_utf8 vals')) w))).
Proof.
  intros Hf Hg Hpre Hmiss.
  assert (pre ++ f :: post <> []) as Hne by (destruct pre; discriminate).
  split.
  - intros Ht id_str Hid.
    assert (emit_status status data w
            = (Ok (Return (PyBool false)),
               set_running false (add_logged (field_not_found_record f id_str) w))) as He.
    { rewrite (emit_status_fields status data _ w Hf Hne).
      rewrite (build_row_resolved_prefix status pre vals Hpre).
      rewrite (build_row_missing_terminate status f (opts w) id_str) by assumption.
      reflexivity. }
    rewrite He. repeat split.
  - intros Ht.
    assert (forall csvrow,
               build_row status (pre ++ f :: post) csvrow w
               = build_row status post (csvrow ++ map encode_utf8 vals ++ [PyStr ""]) w) as Hb.
    { intros csvrow.
      rewrite (build_row_resolved_prefix status pre vals Hpre).
      rewrite (build_row_missing_continue status f (opts w)) by assumption.
      unfold MISSING_FIELD_VALUE. rewrite <- app_assoc. reflexivity. }
    split; [exact Hb|].
    intros vals' Hpost Hw.
    rewrite (emit_status_fields status data _ w Hf Hne), Hb.
    rewrite (build_row_all_resolved status post vals') by exact Hpost.
    cbn [app] in Hw |- *. rewrite <- app_assoc. cbn [app]. rewrite Hw. reflexivity.
Qed.

End MissingField.

Lemma C6_missing_location_column :
  (emit_status english_status_object english_status (fresh_world (three_field_opts true))
   = (Ok (Return (PyBool false)),
      set_running false
        (add_logged (field_not_found_record "user.location" (PyStr "8"))
           (fresh_world (three_field_opts true))))) /\
  (emit_status english_status_object english_status (fresh_world (three_field_opts false))
   = (Ok (Fall ()),
      add_stdout (CsvRow [PyStr "8"; PyStr ""; PyStr "hello"])
        (fresh_world (three_field_opts false)))).
Proof.
  split.
  - destruct (@C6_missing_field ref_collaborators english_status_object english_status
                (fresh_world (three_field_opts true))
                ["id_str"] "user.location" ["text"] [PyStr "8"]
                eq_refl eq_refl ltac:(repeat constructor) eq_refl) as [Hterm _].
    destruct (Hterm eq_refl (PyStr "8") eq_refl) as [He _]. exact He.
  - destruct (@C6_missing_field ref_collaborators english_status_object english_status
                (fresh_world (three_field_opts false))
                ["id_str"] "user.location" ["text"] [PyStr "8"]
                eq_refl eq_refl ltac:(repeat constructor) eq_refl) as [_ Hcont].
    destruct (Hcont eq_refl) as [_ Hrow].
    exact (Hrow [PyStr "hello"] ltac:(repeat constructor) eq_refl).
Defined.

(** ** Comma-separated values and locations *)

Lemma split_cons_shape (sep c : ascii) (s : string) :
  PyStr.split sep (String c s)
  = if Ascii.eqb c sep then EmptyString :: PyStr.split sep s
    else match PyStr.split sep s with
         | [] => [String c EmptyString]
         | w :: ws => String c w :: ws
         end.
Proof. reflexivity. Qed.

(** Joining the items of [csv_args] with commas gives the value back. *)
Lemma csv_args_join (value : string) : join "," (csv_args value) = value.
Proof.
  unfold csv_args. induction value as [|c s IH]; [reflexivity|].
  rewrite split_cons_shape.
  destruct (Ascii.eqb c ",") eqn:Ec.
  - apply Ascii.eqb_eq in Ec. subst c.
    destruct (PyStr.split "," s) as [|w ws] eqn:Es; [exfalso; exact (split_not_nil _ _ Es)|].
    cbn [join]. cbn [join] in IH. rewrite IH. reflexivity.
  - destruct (PyStr.split "," s) as [|w ws] eqn:Es; [exfalso; exact (split_not_nil _ _ Es)|].
    destruct ws as [|w' ws]; cbn [join] in IH |- *; rewrite <- IH; reflexivity.
Qed.

Lemma csv_args_length (value : string) :
  length (csv_args value) = S (count_char "," value).
Proof.
  unfold csv_args. induction value as [|c s IH]; [reflexivity|].
  rewrite split_cons_shape. cbn [count_char].
  destruct (Ascii.eqb c ",").
  - cbn [length]. rewrite IH. reflexivity.
  - destruct (PyStr.split "," s) as [|w ws] eqn:Es; [exfalso; exact (split_not_nil _ _ Es)|].
    cbn [length] in IH |- *. exact IH.
Qed.

Lemma csv_args_no_comma (value item : string) :
  In item (csv_args value) -> count_char "," item = O.
Proof.
  unfold csv_args. revert item. induction value as [|c s IH]; intros item Hin.
  - simpl in Hin. destruct Hin as [<-|[]]. reflexivity.
  - rewrite split_cons_shape in Hin.
    destruct (Ascii.eqb c ",") eqn:Ec.
    + destruct Hin as [<-|Hin]; [reflexivity|apply IH, Hin].
    + destruct (PyStr.split "," s) as [|w ws] eqn:Es; [exfalso; exact (split_not_nil _ _ Es)|].
      destruct Hin as [<-|Hin].
      * cbn [count_char]. rewrite Ec. apply (IH w). left. reflexivity.
      * apply IH. right. exact Hin.
Qed.

(** X1: [csv_args] loses nothing: the items joined with commas are the
    value again, there is one more item than there are commas (so never
    none, and the empty value gives one empty item), and no item contains a
    comma. *)
Theorem X1_csv_args_round_trip (value : string) :
  join "," (csv_args value) = value /\
  length (csv_args value) = S (count_char "," value) /\
  (forall item, In item (csv_args value) -> count_char "," item = O) /\
  csv_args "" = [""].
Proof.
  split; [apply csv_args_join|]. split; [apply csv_args_length|].
  split; [apply csv_args_no_comma|reflexivity].
Qed.

(** X2: [locations_type] accepts a value exactly when the number of its
    comma-separated items, one more than its commas, is a multiple of
    four; it then returns those items unchanged, without looking at whether
    they are numbers, and prints the list once to standard output.
    Otherwise it raises the argument error and prints nothing, as it does
    for the empty value. *)
Theorem X2_locations_type_multiple_of_four (value : string) :
  (Nat.modulo (S (count_char "," value)) 4 = O ->
   locations_type value = (Ok (csv_args value), [csv_args value])) /\
  (Nat.modulo (S (count_char "," value)) 4 <> O ->
   exists msg, locations_type value = (Raise (ArgumentTypeError msg), [])) /\
  (exists msg, locations_type "" = (Raise (ArgumentTypeError msg), [])).
Proof.
  unfold locations_type. rewrite csv_args_length. repeat split.
  - intros ->. reflexivity.
  - intros Hne. apply Nat.eqb_neq in Hne. rewrite Hne. eexists. reflexivity.
  - eexists. reflexivity.
Qed.

Lemma X2_bounding_box_accepted :
  locations_type "-74,x,-73,41"
  = (Ok ["-74"; "x"; "-73"; "41"], [["-74"; "x"; "-73"; "41"]]) /\
  exists msg, locations_type "-74,40,-73" = (Raise (ArgumentTypeError msg), []).
Proof.
  split.
  - apply (proj1 (X2_locations_type_multiple_of_four "-74,x,-73,41")). reflexivity.
  - apply (proj1 (proj2 (X2_locations_type_multiple_of_four "-74,40,-73"))).
    vm_compute. discriminate.
Defined.

(** ** Duration specifications in general *)

Ltac ascii_cases c := destruct c as [[] [] [] [] [] [] [] []].

Lemma digit_not_space (c : ascii) : PyStr.is_digit c = true -> PyStr.is_space c = false.
Proof. ascii_cases c; intros Hd; try discriminate Hd; reflexivity. Qed.

Lemma digit_lower (c : ascii) : PyStr.is_digit c = true -> PyStr.lower_char c = c.
Proof. ascii_cases c; intros Hd; try discriminate Hd; reflexivity. Qed.

Lemma lower_not_digit (c : ascii) :
  PyStr.is_digit c = false -> PyStr.is_digit (PyStr.lower_char c) = false.
Proof. ascii_cases c; intros Hd; try discriminate Hd; reflexivity. Qed.

Lemma space_lower (c : ascii) : PyStr.is_space c = true -> PyStr.lower_char c = c.
Proof. ascii_cases c; intros Hd; try discriminate Hd; reflexivity. Qed.

Lemma space_not_digit (c : ascii) : PyStr.is_space c = true -> PyStr.is_digit c = false.
Proof. ascii_cases c; intros Hd; try discriminate Hd; reflexivity. Qed.

Lemma odd_space_not_in_secs (c : ascii) :
  PyStr.is_space c = true -> c <> " "%char -> secs !! String c EmptyString = None.
Proof.
  ascii_cases c; intros Hd Hne; try discriminate Hd; try (vm_compute; reflexivity).
  exfalso. apply Hne. reflexivity.
Qed.

Lemma lower_app (a b : string) : PyStr.lower (a +:+ b) = PyStr.lower a +:+ PyStr.lower b.
Proof.
  induction a as [|c a IH]; [reflexivity|].
  exact (f_equal (String (PyStr.lower_char c)) IH).
Qed.

Lemma lower_digits (ds : string) :
  all_chars PyStr.is_digit ds = true -> PyStr.lower ds = ds.
Proof.
  induction ds as [|c ds IH]; simpl; [reflexivity|].
  intros Hd. apply andb_true_iff in Hd. destruct Hd as [Hc Hds].
  rewrite (digit_lower c Hc), (IH Hds). reflexivity.
Qed.

Lemma rstrip_nonspace (c : ascii) (s : string) :
  PyStr.is_space c = false -> PyStr.rstrip (String c s) = String c (PyStr.rstrip s).
Proof. intros Hc. simpl. rewrite Hc. destruct (PyStr.rstrip s); reflexivity. Qed.

Lemma rstrip_app (a s : string) :
  PyStr.rstrip s <> EmptyString -> PyStr.rstrip (a +:+ s) = a +:+ PyStr.rstrip s.
Proof.
  intros Hs. induction a as [|c a IH]; [reflexivity|].
  change (String c a +:+ s) with (String c (a +:+ s)).
  change (PyStr.rstrip (String c (a +:+ s)))
    with (match PyStr.rstrip (a +:+ s) with
          | EmptyString =>
              if PyStr.is_space c then EmptyString else String c EmptyString
          | r' => String c r'
          end).
  rewrite IH.
  change (String c a +:+ PyStr.rstrip s) with (String c (a +:+ PyStr.rstrip s)).
  destruct (a +:+ PyStr.rstrip s) eqn:E; [|reflexivity].
  destruct a; simpl in E; [contradiction|discriminate E].
Qed.

Lemma rstrip_digits (ds : string) :
  all_chars PyStr.is_digit ds = true -> PyStr.rstrip ds = ds.
Proof.
  induction ds as [|c ds IH]; simpl; [reflexivity|].
  intros Hd. apply andb_true_iff in Hd. destruct Hd as [Hc Hds].
  rewrite (IH Hds), (digit_not_space c Hc). destruct ds; reflexivity.
Qed.

Lemma lstrip_digits (ds rest : string) :
  all_chars PyStr.is_digit ds = true -> ds <> EmptyString ->
  PyStr.lstrip (ds +:+ rest) = ds +:+ rest.
Proof.
  destruct ds as [|c ds]; [contradiction|]. simpl. intros Hd _.
  apply andb_true_iff in Hd. destruct Hd as [Hc _].
  rewrite (digit_not_space c Hc). reflexivity.
Qed.

Lemma span_digits (ds : string) (c : ascii) (rest : string) :
  all_chars PyStr.is_digit ds = true -> PyStr.is_digit c = false ->
  PyStr.span PyStr.is_digit (ds +:+ String c rest) = (ds, String c rest).
Proof.
  intros Hd Hc. induction ds as [|d ds IH]; simpl.
  - rewrite Hc. reflexivity.
  - simpl in Hd. apply andb_true_iff in Hd. destruct Hd as [Hd Hds].
    rewrite Hd, (IH Hds). reflexivity.
Qed.

Lemma span_head (f : ascii -> bool) (c : ascii) (rest : string) :
  f c = true -> exists a b, PyStr.span f (String c rest) = (String c a, b).
Proof.
  intros Hc. simpl. rewrite Hc. destruct (PyStr.span f rest) as [a b]. eauto.
Qed.

Lemma app_assoc_string (a b c : string) : (a +:+ b) +:+ c = a +:+ (b +:+ c).
Proof.
  induction a as [|x a IH]; [reflexivity|]. exact (f_equal (String x) IH).
Qed.

Lemma append_empty_r (a : string) : a +:+ "" = a.
Proof. induction a as [|x a IH]; [reflexivity|]. exact (f_equal (String x) IH). Qed.

(** The parser on digits followed by a character of the code class. *)
Lemma duration_type_code (ds : string) (u : ascii) (t : string) :
  all_chars PyStr.is_digit ds = true -> ds <> EmptyString ->
  PyStr.is_space u = false ->
  is_code_char (PyStr.lower_char u) = true ->
  PyStr.is_digit u = false ->
  duration_type (ds +:+ String u t)
  = match secs !! String (PyStr.lower_char u) EmptyString with
    | Some k => Ok (PyStr.int_of_digits ds * k)
    | None => Raise KeyError
    end.
Proof.
  intros Hd Hne Hsp Hcode Hnd. unfold duration_type, PyStr.strip.
  rewrite (lstrip_digits ds _ Hd Hne).
  rewrite rstrip_app by (rewrite rstrip_nonspace by exact Hsp; discriminate).
  rewrite rstrip_nonspace by exact Hsp.
  rewrite app_assoc_string, lower_app, (lower_digits ds Hd).
  change (PyStr.lower (String u (PyStr.rstrip t) +:+ " "))
    with (String (PyStr.lower_char u) (PyStr.lower (PyStr.rstrip t +:+ " "))).
  unfold duration_match.
  rewrite (span_digits ds _ _ Hd (lower_not_digit u Hnd)).
  destruct (span_head is_code_char _ (PyStr.lower (PyStr.rstrip t +:+ " ")) Hcode)
    as (a & b & ->).
  destruct ds as [|d ds]; [contradiction|]. reflexivity.
Qed.

Lemma duration_type_bare (ds : string) :
  all_chars PyStr.is_digit ds = true -> ds <> EmptyString ->
  duration_type ds = Ok (PyStr.int_of_digits ds).
Proof.
  intros Hd Hne. unfold duration_type, PyStr.strip.
  assert (PyStr.lstrip ds = ds) as ->.
  { pose proof (lstrip_digits ds EmptyString Hd Hne) as Hl.
    rewrite append_empty_r in Hl. exact Hl. }
  rewrite (rstrip_digits ds Hd), lower_app, (lower_digits ds Hd).
  unfold duration_match. change (PyStr.lower " ") with " ".
  rewrite (span_digits ds " " EmptyString Hd eq_refl).
  destruct ds as [|d ds]; [contradiction|].
  change (Ok (PyStr.int_of_digits (String d ds) * 1)
          = Ok (PyStr.int_of_digits (String d ds))).
  rewrite Z.mul_1_r. reflexivity.
Qed.

(** X3: digits alone are seconds; digits followed by s, m or d, in either
    case, are multiplied by 1, 60 or 86400; and whatever text follows the
    unit letter is ignored, since the pattern is not anchored at the end. *)
Theorem X3_duration_units_and_ignored_tail (ds t : string) :
  all_chars PyStr.is_digit ds = true -> ds <> EmptyString ->
  duration_type ds = Ok (PyStr.int_of_digits ds) /\
  duration_type (ds +:+ String "s" t) = Ok (PyStr.int_of_digits ds * 1) /\
  duration_type (ds +:+ String "m" t) = Ok (PyStr.int_of_digits ds * 60) /\
  duration_type (ds +:+ String "d" t) = Ok (PyStr.int_of_digits ds * 86400) /\
  duration_type (ds +:+ String "S" t) = Ok (PyStr.int_of_digits ds * 1) /\
  duration_type (ds +:+ String "M" t) = Ok (PyStr.int_of_digits ds * 60) /\
  duration_type (ds +:+ String "D" t) = Ok (PyStr.int_of_digits ds * 86400).
Proof.
  intros Hd Hne. split; [apply duration_type_bare; assumption|].
  repeat split; rewrite duration_type_code by (try assumption; reflexivity);
    reflexivity.
Qed.

Lemma X3_ninety_minutes :
  duration_type "90" = Ok 90 /\
  duration_type "90m30s" = Ok (90 * 60) /\
  duration_type "2D" = Ok (2 * 86400).
Proof.
  destruct (X3_duration_units_and_ignored_tail "90" "30s" eq_refl ltac:(discriminate))
    as (Hbare & _ & Hm & _).
  destruct (X3_duration_units_and_ignored_tail "2" "" eq_refl ltac:(discriminate))
    as (_ & _ & _ & _ & _ & _ & HD).
  split; [exact Hbare|]. split; [exact Hm|exact HD].
Defined.

(** X4: the parser sees its argument only through [strip] and [lower]:
    two specifications that agree after stripping white space at both ends
    and lowering the case give the same number of seconds. *)
Theorem X4_duration_ignores_case_and_padding (s s' : string) (n : Z) :
  PyStr.lower (PyStr.strip s) = PyStr.lower (PyStr.strip s') ->
  duration_type s = Ok n ->
  duration_type s' = Ok n.
Proof.
  unfold duration_type. rewrite !lower_app. intros ->.
  destruct (duration_match _) as [[v code]|]; [|discriminate].
  intros Hn. exact Hn.
Qed.

Lemma X4_padded_upper_case : duration_type "  5M " = Ok 300.
Proof.
  apply (X4_duration_ignores_case_and_padding "5m" "  5M " 300); reflexivity.
Defined.

Lemma span_fst_all (f : ascii -> bool) (s : string) :
  all_chars f (PyStr.span f s).1 = true.
Proof.
  induction s as [|c s IH]; simpl; [reflexivity|].
  destruct (f c) eqn:Ec; [|reflexivity].
  destruct (PyStr.span f s) as [a b]. simpl in *. rewrite Ec, IH. reflexivity.
Qed.

Lemma digit_value_bounds (c : ascii) :
  PyStr.is_digit c = true -> 0 <= Z.of_nat (nat_of_ascii c) - 48 <= 9.
Proof. ascii_cases c; intros Hd; try discriminate Hd; vm_compute; split; discriminate. Qed.

Lemma digits_fold_nonneg (ds : string) :
  forall acc : Z,
    0 <= acc ->
    all_chars PyStr.is_digit ds = true ->
    0 <= fold_left (fun a c => 10 * a + (Z.of_nat (nat_of_ascii c) - 48))
           (list_ascii_of_string ds) acc.
Proof.
  induction ds as [|c ds IH]; intros acc Hacc Hd; simpl; [exact Hacc|].
  simpl in Hd. apply andb_true_iff in Hd. destruct Hd as [Hc Hds].
  apply IH; [|exact Hds]. pose proof (digit_value_bounds c Hc). lia.
Qed.

Lemma int_of_digits_nonneg (ds : string) :
  all_chars PyStr.is_digit ds = true -> 0 <= PyStr.int_of_digits ds.
Proof. intros Hd. apply digits_fold_nonneg; [lia|exact Hd]. Qed.

Lemma secs_positive (key : string) (k : Z) : secs !! key = Some k -> 0 < k.
Proof.
  unfold secs. rewrite !lookup_insert, lookup_empty.
  repeat case_decide; intros Hk; simplify_eq; lia.
Qed.

Lemma duration_match_digits (s v code : string) :
  duration_match s = Some (v, code) -> all_chars PyStr.is_digit v = true.
Proof.
  unfold duration_match. pose proof (span_fst_all PyStr.is_digit s) as Hv.
  destruct (PyStr.span PyStr.is_digit s) as [val rest].
  destruct (PyStr.span is_code_char rest) as [c r].
  destruct (PyStr.is_empty val || PyStr.is_empty c); [discriminate|].
  intros [= <- <-]. exact Hv.
Qed.

Lemma duration_match_needs_digit (c : ascii) (s : string) :
  PyStr.is_digit c = false -> duration_match (String c s) = None.
Proof.
  intros Hc. unfold duration_match. simpl. rewrite Hc.
  destruct (PyStr.span is_code_char (String c s)). reflexivity.
Qed.

(** X5: the parser never yields a negative number of seconds, and a value
    that, stripped, does not begin with a decimal digit is rejected with
    the argument error; so is the empty value. *)
Theorem X5_duration_nonnegative_and_needs_digit (s : string) :
  (forall n, duration_type s = Ok n -> 0 <= n) /\
  ((forall c r, PyStr.strip s = String c r -> PyStr.is_digit c = false) ->
   exists msg, duration_type s = Raise (ArgumentTypeError msg)).
Proof.
  split.
  - intros n. unfold duration_type.
    destruct (duration_match _) as [[v code]|] eqn:E; [|discriminate].
    destruct (secs !! _) as [k|] eqn:Ek; [|discriminate].
    intros [= <-]. apply duration_match_digits in E. apply secs_positive in Ek.
    pose proof (int_of_digits_nonneg v E). nia.
  - intros Hnd. unfold duration_type.
    destruct (PyStr.strip s) as [|c r] eqn:Es.
    + eexists. reflexivity.
    + change (PyStr.lower (String c r +:+ " "))
        with (String (PyStr.lower_char c) (PyStr.lower (r +:+ " "))).
      rewrite duration_match_needs_digit
        by (apply lower_not_digit, (Hnd c r eq_refl)).
      eexists. reflexivity.
Qed.

Lemma X5_minus_five_rejected :
  exists msg, duration_type "-5" = Raise (ArgumentTypeError msg).
Proof.
  apply (proj2 (X5_duration_nonnegative_and_needs_digit "-5")).
  intros c r Hs. vm_compute in Hs. injection Hs as <- _. reflexivity.
Defined.

(** X6: digits followed by white space other than a blank, with more text
    after it, are not rejected with the argument error: the white-space
    character is taken as the unit, the [secs] table has no entry for it,
    and the lookup raises [KeyError]. *)
Theorem X6_duration_inner_whitespace_key_error
        (ds : string) (c x : ascii) (t : string) :
  all_chars PyStr.is_digit ds = true -> ds <> EmptyString ->
  PyStr.is_space c = true -> c <> " "%char ->
  PyStr.is_space x = false ->
  duration_type (ds +:+ String c (String x t)) = Raise KeyError.
Proof.
  intros Hd Hne Hc Hnb Hx. unfold duration_type, PyStr.strip.
  rewrite (lstrip_digits ds _ Hd Hne).
  change (ds +:+ String c (String x t)) with (ds +:+ (String c "" +:+ String x t)).
  rewrite <- app_assoc_string.
  rewrite rstrip_app by (rewrite rstrip_nonspace by exact Hx; discriminate).
  rewrite rstrip_nonspace by exact Hx.
  rewrite !app_assoc_string, lower_app, (lower_digits ds Hd).
  change (PyStr.lower (String c "" +:+ String x (PyStr.rstrip t) +:+ " "))
    with (String (PyStr.lower_char c)
            (PyStr.lower (String x (PyStr.rstrip t) +:+ " "))).
  rewrite (space_lower c Hc). unfold duration_match.
  rewrite (span_digits ds _ _ Hd (space_not_digit c Hc)).
  assert (is_code_char c = true) as Hcode by (unfold is_code_char; rewrite Hc; reflexivity).
  destruct (span_head is_code_char c
              (PyStr.lower (String x (PyStr.rstrip t) +:+ " ")) Hcode) as (a & b & ->).
  destruct ds as [|d ds]; [contradiction|].
  cbn [PyStr.is_empty orb PyStr.head1].
  rewrite (odd_space_not_in_secs c Hc Hnb). reflexivity.
Qed.

Lemma X6_tab_before_unit :
  duration_type ("5" +:+ String (ascii_of_nat 9) "m") = Raise KeyError.
Proof.
  apply (X6_duration_inner_whitespace_key_error "5" (ascii_of_nat 9) "m" "");
    first [reflexivity | discriminate].
Defined.

(** ** Location macros in general *)

Lemma lower_char_idem (c : ascii) :
  PyStr.lower_char (PyStr.lower_char c) = PyStr.lower_char c.
Proof. ascii_cases c; reflexivity. Qed.

Lemma lower_idem (s : string) : PyStr.lower (PyStr.lower s) = PyStr.lower s.
Proof.
  induction s as [|c s IH]; [reflexivity|].
  simpl. rewrite lower_char_idem, IH. reflexivity.
Qed.

Lemma lookup_macro_lower (table : gmap string macro) (fuel : nat) (name name' : string) :
  PyStr.lower name = PyStr.lower name' ->
  lookup_macro_in table fuel name = lookup_macro_in table fuel name'.
Proof.
  intros Heq. destruct fuel as [|fuel]; [reflexivity|]. simpl. rewrite Heq. reflexivity.
Qed.

(** X7: the macro lookup does not see the case of the name it is given:
    names that agree after lowering give the same outcome, against any
    table and for any number of calls, and so does the lowered name. *)
Theorem X7_macro_lookup_case_insensitive
        (table : gmap string macro) (fuel : nat) (name name' : string) :
  PyStr.lower name = PyStr.lower name' ->
  lookup_macro_in table fuel name = lookup_macro_in table fuel name' /\
  lookup_macro_in table fuel (PyStr.lower name) = lookup_macro_in table fuel name.
Proof.
  intros Heq. split.
  - apply lookup_macro_lower, Heq.
  - apply lookup_macro_lower, lower_idem.
Qed.

Lemma X7_upper_case_usa :
  lookup_location_query_macro 2 "USA" = lookup_location_query_macro 2 "usa".
Proof.
  apply (X7_macro_lookup_case_insensitive LOCATION_QUERY_MACROS 2 "USA" "usa").
  reflexivity.
Defined.

Lemma macro_table_cases (key : string) :
  (LOCATION_QUERY_MACROS !! key = None /\ ~ In key macro_names) \/
  (In key macro_names /\
   exists box, length box = 4%nat /\
     forall n, lookup_location_query_macro (2 + n) key = Returned (Some box)).
Proof.
  unfold LOCATION_QUERY_MACROS.
  destruct (decide (key = "any")) as [->|H1];
    [right; split; [simpl; auto|eexists; split; [|intros n; vm_compute; reflexivity]; reflexivity]|].
  destruct (decide (key = "all")) as [->|H2];
    [right; split; [simpl; auto|eexists; split; [|intros n; vm_compute; reflexivity]; reflexivity]|].
  destruct (decide (key = "global")) as [->|H3];
    [right; split; [simpl; auto|eexists; split; [|intros n; vm_compute; reflexivity]; reflexivity]|].
  destruct (decide (key = "usa")) as [->|H4];
    [right; split; [simpl; auto|eexists; split; [|intros n; vm_compute; reflexivity]; reflexivity]|].
  destruct (decide (key = "contintental_usa")) as [->|H5];
    [right; split; [simpl; auto 6|eexists; split; [|intros n; vm_compute; reflexivity]; reflexivity]|].
  left. split.
  - rewrite !lookup_insert_ne by congruence. apply lookup_empty.
  - simpl. intros [?|[?|[?|[?|[?|[]]]]]]; congruence.
Qed.

(** X8: against the shipped table a lookup returns a box exactly for the
    five names of the table, compared after lowering, and every box it
    returns has four coordinates; any other name gives [None] after a
    single read. *)
Theorem X8_macro_lookup_results (name : string) :
  (In (PyStr.lower name) macro_names /\
   exists box, length box = 4%nat /\
     forall n, lookup_location_query_macro (2 + n) name = Returned (Some box)) \/
  (~ In (PyStr.lower name) macro_names /\
   forall n, lookup_location_query_macro (1 + n) name = Returned None).
Proof.
  destruct (macro_table_cases (PyStr.lower name)) as [[Hnone Hnot] | [Hin (box & Hlen & Hbox)]].
  - right. split; [exact Hnot|]. intros n.
    unfold lookup_location_query_macro. simpl. rewrite Hnone. reflexivity.
  - left. split; [exact Hin|]. exists box. split; [exact Hlen|]. intros n.
    rewrite <- (Hbox n). unfold lookup_location_query_macro.
    symmetry. apply lookup_macro_lower, lower_idem.
Qed.

(** ** What a session never undoes *)

Lemma session_order_refl (w : World) : session_order w w.
Proof.
  unfold session_order. repeat split; auto; try lia;
    exists []; rewrite app_nil_r; reflexivity.
Qed.

Lemma session_order_trans (w1 w2 w3 : World) :
  session_order w1 w2 -> session_order w2 w3 -> session_order w1 w3.
Proof.
  unfold session_order.
  intros (Ho & Hg & Hr & Hc & [a Ha] & [b Hb] & [c Hc'] & [d Hd])
         (Ho' & Hg' & Hr' & Hcc & [a' Ha'] & [b' Hb'] & [c' Hc''] & [d' Hd']).
  repeat split; try congruence; auto; try lia.
  - exists (a ++ a'). rewrite Ha', Ha, app_assoc. reflexivity.
  - exists (b ++ b'). rewrite Hb', Hb, app_assoc. reflexivity.
  - exists (c ++ c'). rewrite Hc'', Hc', app_assoc. reflexivity.
  - exists (d ++ d'). rewrite Hd', Hd, app_assoc. reflexivity.
Qed.

Section Orders.

Context {A : Type}.

Lemma respects_ret (a : A) : respects session_order (ret a).
Proof. intros w. apply session_order_refl. Qed.

Lemma respects_raise (e : exn) : respects session_order (@raise A e).
Proof. intros w. apply session_order_refl. Qed.

Lemma respects_lift (r : res A) : respects session_order (lift r).
Proof. intros w. apply session_order_refl. Qed.

Lemma respects_gets (g : World -> A) : respects session_order (gets g).
Proof. intros w. apply session_order_refl. Qed.

Lemma respects_try_except (body : M A) (handlers : exn -> option (M A)) :
  respects session_order body ->
  (forall e h, handlers e = Some h -> respects session_order h) ->
  respects session_order (try_except body handlers).
Proof.
  intros Hb Hh w. unfold try_except.
  specialize (Hb w). destruct (body w) as [[a|e] w'] eqn:E; simpl in *; [exact Hb|].
  destruct (handlers e) as [h|] eqn:Eh; simpl; [|exact Hb].
  eapply session_order_trans; [exact Hb|]. apply (Hh e h Eh w').
Qed.

End Orders.

Lemma respects_bind {A B : Type} (m : M A) (k : A -> M B) :
  respects session_order m -> (forall a, respects session_order (k a)) ->
  respects session_order (bind m k).
Proof.
  intros Hm Hk w. unfold bind.
  specialize (Hm w). destruct (m w) as [[a|e] w'] eqn:E; simpl in *; [|exact Hm].
  eapply session_order_trans; [exact Hm|]. apply (Hk a w').
Qed.

Lemma respects_modify (g : World -> World) :
  (forall w, session_order w (g w)) -> respects session_order (modify g).
Proof. intros Hg w. apply Hg. Qed.

Ltac order_setter :=
  intros; unfold session_order; cbn;
  repeat split; auto; try lia;
  first [ exists []; rewrite app_nil_r; reflexivity | eexists; reflexivity ].

Lemma order_set_running_false (w : World) : session_order w (set_running false w).
Proof. order_setter. Qed.

Lemma order_add_logged (r : logrec) (w : World) : session_order w (add_logged r w).
Proof. order_setter. Qed.

Lemma order_add_stdout (o : output) (w : World) : session_order w (add_stdout o w).
Proof. order_setter. Qed.

Lemma order_add_slept (d : Z) (w : World) : session_order w (add_slept d w).
Proof. order_setter. Qed.

Lemma order_add_call (c : call) (w : World) : session_order w (add_call c w).
Proof. order_setter. Qed.

Lemma order_set_first (t : option Z) (w : World) :
  session_order w (set_first_message_received t w).
Proof. order_setter. Qed.

Lemma order_set_now (t : Z) (w : World) : session_order w (set_now t w).
Proof. order_setter. Qed.

Lemma order_count_up (w : World) :
  session_order w (set_status_count (status_count w + 1) w).
Proof. order_setter. Qed.

Ltac order_step :=
  first
    [ apply respects_ret
    | apply respects_raise
    | apply respects_lift
    | apply respects_gets
    | apply respects_modify;
      first [ apply order_set_running_false | apply order_add_logged
            | apply order_add_stdout | apply order_add_slept | apply order_add_call
            | apply order_set_first | apply order_set_now ]
    | apply respects_bind; [| intros ]
    | apply respects_try_except;
      [| let e := fresh "e" in let h := fresh "h" in let Hh := fresh "Hh" in
         intros e h Hh; destruct e; inversion Hh; subst; clear Hh ]
    | match goal with
      | |- respects _ (match ?x with _ => _ end) => destruct x
      end ].

Ltac order := repeat order_step.

Section SessionOrder.

Context `{Collaborators}.

Lemma build_row_order (status : pyval) (fs : list string) (csvrow : list pyval) :
  respects session_order (build_row status fs csvrow).
Proof.
  revert csvrow. induction fs as [|f fs IH]; intros csvrow; simpl.
  - apply respects_ret.
  - unfold log. apply respects_bind; [order|].
    intros [v|v]; [order|apply IH].
Qed.

Lemma count_up_order :
  respects session_order
    (n <- gets status_count ;; modify (set_status_count (n + 1))).
Proof. intros w. apply order_count_up. Qed.

Lemma status_handler_order (data : string) :
  respects session_order (parse_status_and_dispatch data).
Proof.
  unfold parse_status_and_dispatch.
  apply respects_bind; [order|]. intros decoded.
  apply respects_bind; [order|]. intros status.
  apply respects_bind; [unfold_listener; order|]. intros matched.
  apply respects_bind.
  - destruct matched; [|order].
    intros w. unfold bind at 1, gets. unfold bind at 1, modify.
    eapply session_order_trans; [apply order_count_up|].
    generalize (set_status_count (status_count w + 1) w). clear w.
    change (respects session_order
              (stop <- should_stop ;;
               if stop then modify (set_running false) ;; ret (Return (PyBool false))
               else emit_status status data)).
    unfold_listener. order. all: apply build_row_order.
  - intros r. unfold_listener. order.
Qed.

Lemma handle_message_order (r : Recognizer) (data : string) :
  respects session_order (handle_message r data).
Proof.
  unfold handle_message. apply respects_bind; [order|]. intros _.
  destruct (handler_method r).
  - apply status_handler_order.
  - unfold_listener. order.
  - unfold_listener. order.
  - unfold_listener. order.
  - unfold_listener. order.
Qed.

Lemma dispatch_order (rs : list Recognizer) (data : string) :
  respects session_order (dispatch rs data).
Proof.
  induction rs as [|r rs IH]; simpl; [apply respects_ret|].
  unfold call_match. apply respects_bind; [order|]. intros m.
  destruct m; [|exact IH].
  apply respects_bind; [apply handle_message_order|]. intros; order.
Qed.

Lemma on_data_order (data : string) : respects session_order (on_data data).
Proof.
  unfold on_data. apply respects_bind; [order|]. intros first.
  apply respects_bind; [unfold_listener; order|]. intros _.
  apply respects_bind; [unfold_listener; order|]. intros stop.
  destruct stop; [order|apply dispatch_order].
Qed.

Lemma stream_filter_order (events : list transport_event) :
  respects session_order (stream_filter events).
Proof.
  induction events as [|ev events IH]; simpl; [apply respects_ret|].
  destruct ev.
  - apply respects_bind; [order|]. intros _.
    apply respects_bind; [apply on_data_order|]. intros r.
    destruct (is_False r); [order|exact IH].
  - apply respects_bind; [unfold_listener; order|]. intros r.
    destruct (is_False r); [order|exact IH].
  - apply respects_bind; [unfold_listener; order|]. intros r.
    destruct (is_False r); [order|exact IH].
  - order.
Qed.

Lemma session_iteration_order (events : list transport_event) :
  respects session_order (session_iteration events).
Proof.
  unfold session_iteration, log, sleep.
  apply respects_bind.
  - apply respects_try_except.
    + apply respects_bind; [|intros; order].
      apply respects_try_except.
      * apply respects_bind; [order|]. intros _. apply stream_filter_order.
      * intros e h Hh. destruct e; inversion Hh; subst. order.
    + intros e h Hh. destruct e; inversion Hh; subst; order.
  - intros _. order.
Qed.

(** X9: nothing in a session is undone.  Whatever the transport delivers
    over any number of connection attempts, the session loop leaves the
    options as they are, never restarts a stopped listener, never lowers
    the status counter, and only adds to the output, the log, the sleeps
    and the recognizer calls made so far. *)
Theorem X9_session_only_moves_forward
        (attempts : list (list transport_event)) (w : World) :
  session_order w (process_tweets_loop attempts w).2.
Proof.
  revert w. induction attempts as [|events attempts IH]; intros w; simpl.
  - unfold bind, gets. destruct (running w); apply session_order_refl.
  - unfold bind at 1, gets. destruct (running w); [|apply session_order_refl].
    unfold bind.
    pose proof (session_iteration_order events w) as Hs.
    destruct (session_iteration events w) as [[u|e] w1]; simpl in Hs; [|exact Hs].
    eapply session_order_trans; [exact Hs|apply IH].
Qed.

End SessionOrder.

(** ** How the session loop ends *)

Section LoopOutcome.

Context `{Collaborators}.

Lemma session_iteration_ok (events : list transport_event) (w : World) :
  (session_iteration events w).1 = Ok ().
Proof.
  rewrite session_iteration_eq.
  destruct (stream_filter events _) as [[u|e] w1]; [reflexivity|].
  destruct e; reflexivity.
Qed.

Lemma loop_outcome (attempts : list (list transport_event)) :
  forall w : World,
    (process_tweets_loop attempts w).1
    = Ok (if running (process_tweets_loop attempts w).2
          then AwaitingTransport else Exited).
Proof.
  induction attempts as [|events attempts IH]; intros w.
  - simpl. unfold bind, gets. destruct (running w) eqn:Hr; simpl; rewrite Hr; reflexivity.
  - destruct (running w) eqn:Hr.
    + rewrite loop_step by exact Hr. apply IH.
    + rewrite loop_exited by exact Hr. simpl. rewrite Hr. reflexivity.
Qed.

Lemma loop_exited_prefix (attempts more : list (list transport_event)) :
  forall w : World,
    (process_tweets_loop attempts w).1 = Ok Exited ->
    process_tweets_loop (attempts ++ more) w = process_tweets_loop attempts w.
Proof.
  induction attempts as [|events attempts IH]; intros w Hex.
  - simpl in Hex. unfold bind, gets in Hex.
    destruct (running w) eqn:Hr; [discriminate Hex|].
    rewrite !loop_exited by exact Hr. reflexivity.
  - destruct (running w) eqn:Hr.
    + cbn [app]. rewrite !loop_step by exact Hr.
      rewrite loop_step in Hex by exact Hr. apply IH, Hex.
    + rewrite !loop_exited by exact Hr. reflexivity.
Qed.

(** X10: the session loop lets no exception of the stream or of a handler
    out; it ends as exited exactly when the listener has stopped, and
    otherwise it has used every attempt and is about to call the stream
    again.  Once it has exited, attempts that would have followed are never
    made: the outcome and the world are those of the attempts before. *)
Theorem X10_loop_ends_once (attempts more : list (list transport_event)) (w : World) :
  (process_tweets_loop attempts w).1
  = Ok (if running (process_tweets_loop attempts w).2
        then AwaitingTransport else Exited) /\
  ((process_tweets_loop attempts w).1 = Ok Exited ->
   process_tweets_loop (attempts ++ more) w = process_tweets_loop attempts w).
Proof. split; [apply loop_outcome|apply loop_exited_prefix]. Qed.

(** X11: an exception of the stream call that is not an [IOError] always
    ends the session, whatever terminate-on-error says: the listener is
    stopped, the loop exits without sleeping, and the log gains the record
    of an unexpected exception unless the exception is the keyboard
    interrupt, which is not logged. *)
Theorem X11_other_exceptions_are_fatal
        (e : exn) (rest : list transport_event) (more : list (list transport_event))
        (w : World) :
  running w = true ->
  e <> IOError ->
  exists w',
    process_tweets_loop ((Failure e :: rest) :: more) w = (Ok Exited, w') /\
    running w' = false /\
    slept w' = slept w /\
    stdout w' = stdout w /\
    (e = KeyboardInterrupt ->
     logged w' = logged w ++ [mkLog DEBUG "streamer.filter(%s)" []]) /\
    (e <> KeyboardInterrupt ->
     exists before,
       logged w' = before ++ [mkLog EXCEPTION "Unexpected exception." []]).
Proof.
  intros Hr He. rewrite loop_step by exact Hr.
  rewrite session_iteration_eq. simpl. unfold raise.
  destruct e; try contradiction;
    try match goal with
        | |- context [PyStr.contains ?a ?b] => destruct (PyStr.contains a b)
        end;
    (eexists; split; [apply loop_exited; reflexivity|];
     split; [reflexivity|]; split; [reflexivity|]; split; [reflexivity|];
     split; [intros Hk; first [discriminate Hk|reflexivity]
            |intros Hk; first [exfalso; apply Hk; reflexivity
                              |eexists; reflexivity]]).
Qed.

(** X12: when the stream call raises a [TypeError] that mentions
    stall_warnings, the announced restart without stall warnings does not
    take place: the notice is logged, reading the unbound name [track]
    raises, and the session ends with the listener stopped, no second call
    of the stream and no sleep. *)
Theorem X12_stall_warnings_fallback_never_runs
        (msg : string) (rest : list transport_event) (more : list (list transport_event))
        (w : World) :
  running w = true ->
  PyStr.contains "stall_warnings" msg = true ->
  process_tweets_loop ((Failure (TypeError msg) :: rest) :: more) w
  = (Ok Exited,
     add_logged (mkLog EXCEPTION "Unexpected exception." [])
       (set_running false
          (add_logged (mkLog WARN stall_warnings_notice [])
             (add_logged (mkLog DEBUG "streamer.filter(%s)" []) w)))).
Proof.
  intros Hr Hm. rewrite loop_step by exact Hr.
  rewrite session_iteration_eq. simpl. unfold raise. rewrite Hm.
  apply loop_exited. reflexivity.
Qed.

End LoopOutcome.

Lemma X12_unexpected_keyword :
  (process_tweets_loop
     [[Failure (TypeError "filter() got an unexpected keyword argument 'stall_warnings'")];
      [Message 1 english_status]]
     (fresh_world default_opts)).1 = Ok Exited.
Proof.
  rewrite (@X12_stall_warnings_fallback_never_runs ref_collaborators
             "filter() got an unexpected keyword argument 'stall_warnings'"
             [] [[Message 1 english_status]] (fresh_world default_opts) eq_refl eq_refl).
  reflexivity.
Defined.

Lemma X11_attribute_error_is_fatal :
  exists w',
    process_tweets_loop [[Failure AttributeError]] (fresh_world default_opts)
    = (Ok Exited, w') /\ running w' = false /\ slept w' = [].
Proof.
  destruct (@X11_other_exceptions_are_fatal ref_collaborators AttributeError [] []
              (fresh_world default_opts) eq_refl ltac:(discriminate))
    as (w' & Hloop & Hrun & Hslept & _).
  exists w'. split; [exact Hloop|]. split; [exact Hrun|exact Hslept].
Defined.

Lemma X10_nothing_after_interrupt :
  process_tweets_loop ([[Failure KeyboardInterrupt]] ++ [[Failure IOError]])
    (fresh_world default_opts)
  = process_tweets_loop [[Failure KeyboardInterrupt]] (fresh_world default_opts).
Proof.
  apply (proj2 (@X10_loop_ends_once ref_collaborators [[Failure KeyboardInterrupt]] [[Failure IOError]]
                  (fresh_world default_opts))).
  reflexivity.
Defined.

(** ** The duration limit at the entry of [on_data] *)

Section DurationGate.

Context `{Collaborators}.

Lemma entry_world_started (w : World) :
  truthy_int (first_message_received w) = true -> entry_world w = w.
Proof. intros Ht. unfold entry_world. rewrite Ht. reflexivity. Qed.

Lemma truthy_some (z : Z) : z <> 0 -> truthy_int (Some z) = true.
Proof. intros Hz. simpl. apply negb_true_iff, Z.eqb_neq, Hz. Qed.

Lemma should_stop_duration (w : World) (D T0 : Z) :
  duration (opts w) = Some D -> D <> 0 ->
  first_message_received w = Some T0 -> T0 <> 0 ->
  should_stop w
  = if now w - T0 >=? D
    then (Ok true,
          add_logged
            (mkLog DEBUG "Stop requested due to duration limits (et=%d, target=%d seconds)."
                   [PyInt (now w - T0); PyInt D]) w)
    else (Ok false, w).
Proof.
  intros Hd HD Hf HT.
  unfold should_stop, time_time, log, bind, gets, modify, ret. simpl.
  rewrite Hd, Hf, (truthy_some D HD), (truthy_some T0 HT). simpl.
  destruct (now w - T0 >=? D); reflexivity.
Qed.

(** X13: under a duration limit of D seconds, once a first message has been
    seen at time T0, a message arriving at T0 + D or later is not looked at:
    no recognizer is asked, nothing is written or counted, the listener is
    stopped and [on_data] returns [False].  A message arriving earlier goes
    to the recognizers whatever the number of records counted so far. *)
Theorem X13_duration_limit_at_entry (data : string) (w : World) (D T0 : Z) :
  duration (opts w) = Some D -> D <> 0 ->
  first_message_received w = Some T0 -> T0 <> 0 ->
  (T0 + D <= now w ->
   on_data data w
   = (Ok (PyBool false),
      set_running false
        (add_logged
           (mkLog DEBUG "Stop requested due to duration limits (et=%d, target=%d seconds)."
                  [PyInt (now w - T0); PyInt D]) w))) /\
  (now w < T0 + D -> on_data data w = dispatch recognizers data w).
Proof.
  intros Hd HD Hf HT.
  assert (entry_world w = w) as He.
  { apply entry_world_started. rewrite Hf. apply truthy_some, HT. }
  split; intros Hn; rewrite on_data_eq, He, (should_stop_duration w D T0 Hd HD Hf HT).
  - replace (now w - T0 >=? D) with true; [reflexivity|].
    symmetry. apply Z.geb_le. lia.
  - replace (now w - T0 >=? D) with false; [reflexivity|].
    symmetry. rewrite Z.geb_leb. apply Z.leb_gt. lia.
Qed.

Lemma handler_preserves_first (r : Recognizer) (data : string) :
  preserves first_message_received
    (match handler_method r with
     | parse_status_and_dispatch_h => parse_status_and_dispatch data
     | parse_limit_and_dispatch_h => parse_limit_and_dispatch data
     | parse_warning_and_dispatch_h => parse_warning_and_dispatch data
     | on_disconnect_h => on_disconnect data
     | on_unrecognized_h => on_unrecognized data
     end).
Proof.
  destruct (handler_method r); unfold_listener; frame;
    try (apply build_row_preserves; intros; reflexivity).
Qed.

Lemma dispatch_preserves_first (data : string) (rs : list Recognizer) :
  preserves first_message_received (dispatch rs data).
Proof.
  induction rs as [|r rs IH]; simpl; [apply preserves_ret|].
  apply preserves_bind; [unfold call_match; frame|].
  intros [|]; [|exact IH].
  apply preserves_bind.
  - unfold handle_message. apply preserves_bind; [frame|].
    intros _. apply handler_preserves_first.
  - intros v. destruct (is_False v); frame.
Qed.

Lemma on_data_first (data : string) (w : World) :
  first_message_received (on_data data w).2 = first_message_received (entry_world w).
Proof.
  rewrite on_data_eq.
  destruct (should_stop_cases (entry_world w)) as [-> | [l ->]]; [|reflexivity].
  apply dispatch_preserves_first.
Qed.

Lemma stream_filter_first (events : list transport_event) :
  forall w : World,
    truthy_int (first_message_received w) = true ->
    first_message_received (stream_filter events w).2 = first_message_received w.
Proof.
  induction events as [|ev events IH]; intros w Ht; [reflexivity|].
  destruct ev as [t data|code| |e].
  - rewrite stream_filter_message.
    pose proof (on_data_first data (set_now t w)) as Hf.
    rewrite entry_world_started in Hf by exact Ht. simpl in Hf.
    destruct (on_data data (set_now t w)) as [[r|e] w1]; simpl in Hf; [|exact Hf].
    destruct (is_False r); [exact Hf|].
    rewrite IH; [exact Hf|]. rewrite Hf. exact Ht.
  - rewrite stream_filter_status.
    assert (preserves first_message_received (on_error code)) as Hp
        by (unfold_listener; frame).
    specialize (Hp w).
    destruct (on_error code w) as [[r|e] w1]; simpl in Hp; [|exact Hp].
    destruct (is_False r); [exact Hp|].
    rewrite IH; [exact Hp|]. rewrite Hp. exact Ht.
  - simpl. unfold bind, on_timeout, log, modify, ret. simpl.
    rewrite IH; [reflexivity|exact Ht].
  - reflexivity.
Qed.

Lemma sleep_if_running_first (w : World) :
  first_message_received (sleep_if_running w) = first_message_received w.
Proof. unfold sleep_if_running. destruct (running w); reflexivity. Qed.

Lemma session_iteration_first (events : list transport_event) (w : World) :
  truthy_int (first_message_received w) = true ->
  first_message_received (session_iteration events w).2 = first_message_received w.
Proof.
  intros Ht. rewrite session_iteration_eq.
  pose proof (stream_filter_first events
                (add_logged (mkLog DEBUG "streamer.filter(%s)" []) w) Ht) as Hf.
  destruct (stream_filter events _) as [[u|e] w1]; simpl in Hf.
  - simpl. rewrite sleep_if_running_first. exact Hf.
  - destruct e; cbn [snd]; rewrite sleep_if_running_first;
      repeat match goal with
             | |- context [if ?c then _ else _] => destruct c
             end; exact Hf.
Qed.

(** X14: the duration limit is measured from one instant.  A message that
    arrives while no first message is recorded records its own arrival time;
    from then on no message, error status, timeout, exception or reconnect of
    the session changes the recorded time. *)
Theorem X14_duration_anchor_is_set_once :
  (forall (data : string) (w : World),
     truthy_int (first_message_received w) = false ->
     first_message_received (on_data data w).2 = Some (now w)) /\
  (forall (attempts : list (list transport_event)) (w : World),
     truthy_int (first_message_received w) = true ->
     first_message_received (process_tweets_loop attempts w).2
     = first_message_received w).
Proof.
  split.
  - intros data w Hf. rewrite on_data_first. unfold entry_world. rewrite Hf. reflexivity.
  - intros attempts. induction attempts as [|events attempts IH]; intros w Ht.
    + simpl. unfold bind, gets. destruct (running w); reflexivity.
    + destruct (running w) eqn:Hr.
      * rewrite loop_step by exact Hr.
        rewrite IH; [apply session_iteration_first, Ht|].
        rewrite session_iteration_first by exact Ht. exact Ht.
      * rewrite loop_exited by exact Hr. reflexivity.
Qed.

End DurationGate.

Lemma X14_first_message_sets_anchor :
  first_message_received
    (on_data english_status (set_now 100 (fresh_world default_opts))).2
  = Some 100.
Proof.
  apply (proj1 (@X14_duration_anchor_is_set_once ref_collaborators) english_status
           (set_now 100 (fresh_world default_opts))).
  reflexivity.
Defined.

Lemma X13_message_after_a_minute :
  (on_data english_status
     (mkWorld limited_opts true (Some 100) 0 (Some limited_opts) 160 [] [] [] [])).1
  = Ok (PyBool false).
Proof.
  rewrite (proj1 (@X13_duration_limit_at_entry ref_collaborators english_status
                    (mkWorld limited_opts true (Some 100) 0 (Some limited_opts) 160 [] [] [] [])
                    60 100 eq_refl ltac:(lia) eq_refl ltac:(lia)) ltac:(simpl; lia)).
  reflexivity.
Defined.

(** ** Streams of messages *)

Section MessageStreams.

Context `{Collaborators}.

Lemma entry_world_opts (w : World) : opts (entry_world w) = opts w.
Proof. unfold entry_world. destruct (truthy_int (first_message_received w)); reflexivity. Qed.

Lemma entry_world_rest (w : World) :
  running (entry_world w) = running w /\
  status_count (entry_world w) = status_count w /\
  logged (entry_world w) = logged w.
Proof.
  unfold entry_world. destruct (truthy_int (first_message_received w)); repeat split.
Qed.

Lemma should_stop_unlimited (w : World) :
  truthy_int (duration (opts w)) = false ->
  truthy_int (max_tweets (opts w)) = false ->
  should_stop w = (Ok false, w).
Proof.
  intros Hd Hm. unfold should_stop, count_stop, bind, gets, ret. cbv beta iota.
  rewrite Hd, Hm. reflexivity.
Qed.

Lemma should_stop_count (w : World) (m : Z) :
  truthy_int (duration (opts w)) = false ->
  max_tweets (opts w) = Some m -> m <> 0 ->
  should_stop w
  = if status_count w >? m
    then (Ok true, add_logged (count_limit_record m) w)
    else (Ok false, w).
Proof.
  intros Hd Hm Hnz. unfold should_stop, count_stop, bind, gets, ret. cbv beta iota.
  rewrite Hd, Hm, (truthy_some m Hnz).
  change (int_value (Some m)) with m. cbn [andb].
  destruct (status_count w >? m); reflexivity.
Qed.

Lemma dispatch_unrecognized (data : string) (w : World) :
  unrecognized data ->
  exists w',
    dispatch recognizers data w = (Ok PyNone, w') /\
    opts w' = opts w /\ running w' = running w /\ stdout w' = stdout w /\
    status_count w' = status_count w /\ slept w' = slept w /\
    logged w' = logged w ++ [unrecognized_record data].
Proof.
  intros Hu. unfold unrecognized in Hu.
  change specific_recognizers
    with [status_recognizer; limit_recognizer; warning_recognizer; disconnect_recognizer]
    in Hu.
  repeat match goal with
         | Hf : Forall _ (_ :: _) |- _ => inversion Hf; subst; clear Hf
         end.
  unfold recognizers.
  repeat match goal with
         | Hm : recognizer_match _ data = false |- _ =>
             rewrite dispatch_cons, Hm; clear Hm
         end.
  rewrite dispatch_cons.
  eexists. split; [reflexivity|]. repeat split.
Qed.

Lemma on_data_unrecognized (data : string) (w : World) :
  truthy_int (duration (opts w)) = false ->
  truthy_int (max_tweets (opts w)) = false ->
  unrecognized data ->
  exists w',
    on_data data w = (Ok PyNone, w') /\
    opts w' = opts w /\ running w' = running w /\ stdout w' = stdout w /\
    status_count w' = status_count w /\ slept w' = slept w /\
    logged w' = logged w ++ [unrecognized_record data].
Proof.
  intros Hd Hm Hu. rewrite on_data_eq.
  rewrite should_stop_unlimited by (rewrite entry_world_opts; assumption).
  destruct (dispatch_unrecognized data (entry_world w) Hu)
    as (w' & -> & Ho & Hr & Hs & Hc & Hz & Hl).
  exists w'. split; [reflexivity|].
  destruct (entry_world_rest w) as (Er & Ec & El).
  destruct (entry_world_frame w) as (Ez & Es).
  rewrite Ho, Hr, Hs, Hc, Hz, Hl, entry_world_opts, Er, Ec, El, Ez, Es. repeat split.
Qed.

Lemma stream_filter_unrecognized (msgs : list (Z * string)) :
  forall w : World,
    truthy_int (duration (opts w)) = false ->
    truthy_int (max_tweets (opts w)) = false ->
    Forall (fun m => unrecognized m.2) msgs ->
    exists w',
      stream_filter (map message_of msgs) w = (Ok (), w') /\
      opts w' = opts w /\ running w' = running w /\ stdout w' = stdout w /\
      status_count w' = status_count w /\ slept w' = slept w /\
      logged w' = logged w ++ map (fun m => unrecognized_record m.2) msgs.
Proof.
  induction msgs as [|m msgs IH]; intros w Hd Hm Hu.
  - exists w. cbn [map]. rewrite app_nil_r. repeat split.
  - inversion Hu as [|? ? Hu1 Hu']; subst. clear Hu. rename Hu' into Hu.
    cbn [map]. unfold message_of at 1. rewrite stream_filter_message.
    destruct (on_data_unrecognized m.2 (set_now m.1 w) Hd Hm Hu1)
      as (w1 & -> & Ho & Hr & Hs & Hc & Hz & Hl).
    change (is_False PyNone) with false. cbv iota.
    destruct (IH w1) as (w' & -> & Ho' & Hr' & Hs' & Hc' & Hz' & Hl');
      [rewrite Ho; exact Hd|rewrite Ho; exact Hm|exact Hu|].
    exists w'. split; [reflexivity|].
    rewrite Ho', Hr', Hs', Hc', Hz', Hl', Ho, Hr, Hs, Hc, Hz, Hl.
    cbn [logged set_now]. rewrite <- app_assoc. repeat split.
Qed.

(** X15: messages that none of the four specific recognizers takes are
    only logged.  With neither a duration nor a count limit, a stream call
    that delivers such messages and returns leaves the output, the record
    counter and the running flag as they were, logs one warning per
    message in order of arrival, and is followed by a sleep of five seconds
    and a further call of the stream. *)
Theorem X15_unrecognized_messages_are_only_logged
        (msgs : list (Z * string)) (w : World) :
  running w = true ->
  truthy_int (duration (opts w)) = false ->
  truthy_int (max_tweets (opts w)) = false ->
  Forall (fun m => unrecognized m.2) msgs ->
  exists w',
    process_tweets_loop [map message_of msgs] w = (Ok AwaitingTransport, w') /\
    running w' = true /\
    stdout w' = stdout w /\
    status_count w' = status_count w /\
    slept w' = slept w ++ [5] /\
    logged w'
    = logged w ++ [mkLog DEBUG "streamer.filter(%s)" []]
      ++ map (fun m => unrecognized_record m.2) msgs
      ++ [mkLog DEBUG "Returned from streaming..." []; mkLog DEBUG "Sleeping..." []].
Proof.
  intros Hrun Hd Hm Hu.
  rewrite loop_step by exact Hrun. rewrite session_iteration_eq.
  destruct (stream_filter_unrecognized msgs
              (add_logged (mkLog DEBUG "streamer.filter(%s)" []) w) Hd Hm Hu)
    as (w1 & -> & Ho & Hr & Hs & Hc & Hz & Hl).
  cbn [snd]. unfold sleep_if_running.
  change (running (add_logged (mkLog DEBUG "Returned from streaming..." []) w1))
    with (running w1).
  rewrite Hr. change (running (add_logged (mkLog DEBUG "streamer.filter(%s)" []) w))
    with (running w). rewrite Hrun.
  eexists. split.
  - cbn [process_tweets_loop]. unfold bind, gets. cbn [running add_slept add_logged].
    rewrite Hr. cbn [running add_logged]. rewrite Hrun. reflexivity.
  - cbn [running stdout status_count slept logged add_slept add_logged].
    rewrite Hr, Hs, Hc, Hz, Hl. cbn [running stdout status_count slept logged add_logged].
    rewrite Hrun. repeat split.
    rewrite <- !app_assoc. reflexivity.
Qed.

End MessageStreams.

Lemma X15_two_keep_alive_lines :
  exists w',
    process_tweets_loop [map message_of [(1, "{}"); (2, "hello")]]
      (fresh_world default_opts)
    = (Ok AwaitingTransport, w') /\
    stdout w' = [] /\ slept w' = [5].
Proof.
  destruct (@X15_unrecognized_messages_are_only_logged ref_collaborators
              [(1, "{}"); (2, "hello")] (fresh_world default_opts)
              eq_refl eq_refl eq_refl ltac:(repeat constructor))
    as (w' & Hloop & _ & Hout & _ & Hslept & _).
  exists w'. split; [exact Hloop|]. split; [exact Hout|exact Hslept].
Defined.

(** ** The count limit over a stream of records *)

Section CountLimit.

Context `{Collaborators}.

Lemma emit_status_raw (status : pyval) (data : string) (w : World) :
  fields (opts w) = None ->
  emit_status status data w
  = (Ok (Fall ()), add_stdout (RawLine (PyStr.strip data)) w).
Proof.
  intros Hf. unfold emit_status, bind, gets. cbv beta iota. rewrite Hf. reflexivity.
Qed.

Lemma report_lag_off (data : string) (w : World) :
  truthy_int (report_lag (opts w)) = false -> report_lag_check data w = (Ok (), w).
Proof.
  intros Hl. unfold report_lag_check, bind, gets. cbv beta iota. rewrite Hl. reflexivity.
Qed.

(** The dispatch of an accepted record under a count limit alone. *)
Lemma dispatch_accepted (data : string) (w : World) (m : Z) :
  truthy_int (duration (opts w)) = false ->
  max_tweets (opts w) = Some m -> m <> 0 ->
  fields (opts w) = None ->
  truthy_int (report_lag (opts w)) = false ->
  accepted_status (opts w) data ->
  exists w',
    dispatch recognizers data w
    = (Ok (if status_count w + 1 >? m then PyBool false else PyNone), w') /\
    opts w' = opts w /\
    status_count w' = status_count w + 1 /\
    stdout w'
    = stdout w ++ (if status_count w + 1 >? m then [] else [RawLine (PyStr.strip data)]) /\
    running w' = (if status_count w + 1 >? m then false else running w).
Proof.
  intros Hd Hm Hnz Hf Hl (Hmatch & decoded & status & Hj & Hp & Hacc).
  unfold recognizers. rewrite dispatch_cons, Hmatch, handle_message_eq.
  change (handler_method status_recognizer) with parse_status_and_dispatch_h.
  cbv iota.
  match goal with
  | |- context [parse_status_and_dispatch data ?W] =>
      rewrite (matched_status_eq data W decoded status Hj Hp (Hacc W eq_refl))
  end.
  match goal with
  | |- context [should_stop ?W] => rewrite (should_stop_count W m Hd Hm Hnz)
  end.
  cbn [status_count set_status_count add_call].
  destruct (status_count w + 1 >? m).
  - eexists. split; [reflexivity|]. cbn. rewrite app_nil_r. repeat split.
  - rewrite emit_status_raw by exact Hf.
    unfold bind at 1. rewrite report_lag_off by exact Hl.
    eexists. split; [reflexivity|]. repeat split.
Qed.

Lemma on_data_accepted (data : string) (w : World) (m : Z) :
  truthy_int (duration (opts w)) = false ->
  max_tweets (opts w) = Some m -> m <> 0 ->
  fields (opts w) = None ->
  truthy_int (report_lag (opts w)) = false ->
  accepted_status (opts w) data ->
  status_count w <= m ->
  exists w',
    on_data data w
    = (Ok (if status_count w + 1 >? m then PyBool false else PyNone), w') /\
    opts w' = opts w /\
    status_count w' = status_count w + 1 /\
    stdout w'
    = stdout w ++ (if status_count w + 1 >? m then [] else [RawLine (PyStr.strip data)]) /\
    running w' = (if status_count w + 1 >? m then false else running w).
Proof.
  intros Hd Hm Hnz Hf Hl Hacc Hc.
  destruct (entry_world_rest w) as (Er & Ec & _).
  destruct (entry_world_frame w) as (_ & Es).
  pose proof (entry_world_opts w) as Eo.
  rewrite on_data_eq.
  rewrite (should_stop_count (entry_world w) m) by (rewrite ?Eo; assumption).
  rewrite Ec. replace (status_count w >? m) with false
    by (symmetry; rewrite Z.gtb_ltb; apply Z.ltb_ge; exact Hc).
  destruct (dispatch_accepted data (entry_world w) m
              ltac:(rewrite Eo; assumption) ltac:(rewrite Eo; assumption) Hnz
              ltac:(rewrite Eo; assumption) ltac:(rewrite Eo; assumption)
              ltac:(rewrite Eo; assumption))
    as (w' & Hdisp & Ho & Hn & Hs & Hr).
  rewrite Ec in Hdisp, Hn, Hs, Hr. rewrite Eo in Ho. rewrite Es in Hs. rewrite Er in Hr.
  exists w'. repeat split; assumption.
Qed.

Lemma stream_filter_accepted (m : Z) (msgs : list (Z * string)) :
  forall w : World,
    truthy_int (duration (opts w)) = false ->
    max_tweets (opts w) = Some m -> m <> 0 ->
    fields (opts w) = None ->
    truthy_int (report_lag (opts w)) = false ->
    Forall (fun msg => accepted_status (opts w) msg.2) msgs ->
    status_count w <= m ->
    exists w',
      stream_filter (map message_of msgs) w = (Ok (), w') /\
      stdout w' = stdout w ++ map raw_line (take (Z.to_nat (m - status_count w)) msgs) /\
      running w'
      = (if (length msgs <=? Z.to_nat (m - status_count w))%nat then running w else false) /\
      status_count w'
      = status_count w
        + Z.of_nat (Nat.min (length msgs) (S (Z.to_nat (m - status_count w)))).
Proof.
  induction msgs as [|msg msgs IH]; intros w Hd Hm Hnz Hf Hl Hacc Hc.
  - exists w. cbn [map length]. rewrite take_nil. cbn [map]. rewrite app_nil_r.
    repeat split. cbn. lia.
  - inversion Hacc as [|? ? Hacc1 Hacc']; subst.
    cbn [map]. unfold message_of at 1. rewrite stream_filter_message.
    destruct (on_data_accepted msg.2 (set_now msg.1 w) m Hd Hm Hnz Hf Hl Hacc1 Hc)
      as (w1 & -> & Ho & Hn & Hs & Hr).
    cbn [status_count set_now stdout running] in *.
    destruct (status_count w + 1 >? m) eqn:Hover.
    + apply Z.gtb_lt in Hover.
      change (is_False (PyBool false)) with true. cbv iota.
      exists w1. split; [reflexivity|].
      replace (Z.to_nat (m - status_count w)) with 0%nat by lia.
      rewrite Hs, Hr, Hn. cbn [take map length Nat.leb]. repeat split.
      cbn [length]. lia.
    + rewrite Z.gtb_ltb in Hover. apply Z.ltb_ge in Hover.
      change (is_False PyNone) with false. cbv iota.
      destruct (IH w1 ltac:(rewrite Ho; assumption) ltac:(rewrite Ho; assumption) Hnz
                  ltac:(rewrite Ho; assumption) ltac:(rewrite Ho; assumption)
                  ltac:(rewrite Ho; assumption) ltac:(lia))
        as (w' & -> & Hs' & Hr' & Hn').
      exists w'. split; [reflexivity|].
      rewrite Hs', Hr', Hn', Hs, Hr, Hn.
      replace (Z.to_nat (m - status_count w))
        with (S (Z.to_nat (m - (status_count w + 1)))) by lia.
      cbn [take map length Nat.leb]. rewrite <- app_assoc. repeat split.
      cbn [length]. lia.
Qed.

(** X16: with a count limit of M and no duration limit, fields or lag
    report, a stream of records that all pass the filters has its first M
    records (less those counted before) written as lines in order of
    arrival and nothing else.  The listener keeps running when the stream
    brings no more than that; it is stopped by the next record, which is
    counted but not written, and the records after it are not looked at. *)
Theorem X16_count_limit_over_a_stream (m : Z) (msgs : list (Z * string)) (w : World) :
  truthy_int (duration (opts w)) = false ->
  max_tweets (opts w) = Some m -> 0 < m ->
  fields (opts w) = None ->
  truthy_int (report_lag (opts w)) = false ->
  Forall (fun msg => accepted_status (opts w) msg.2) msgs ->
  status_count w <= m ->
  exists w',
    stream_filter (map message_of msgs) w = (Ok (), w') /\
    stdout w' = stdout w ++ map raw_line (take (Z.to_nat (m - status_count w)) msgs) /\
    running w'
    = (if (length msgs <=? Z.to_nat (m - status_count w))%nat then running w else false) /\
    status_count w'
    = status_count w
      + Z.of_nat (Nat.min (length msgs) (S (Z.to_nat (m - status_count w)))).
Proof.
  intros Hd Hm Hpos. apply stream_filter_accepted; [exact Hd|exact Hm|lia].
Qed.

End CountLimit.

Lemma english_status_accepted :
  @accepted_status ref_collaborators one_record_opts english_status.
Proof.
  split; [reflexivity|].
  eexists. eexists. split; [reflexivity|]. split; [reflexivity|].
  intros w Hw. unfold tweet_matchp, bind, gets. cbv beta iota. rewrite Hw. reflexivity.
Qed.

Lemma X16_one_of_three_written :
  exists w',
    stream_filter
      (map message_of [(1, english_status); (2, english_status); (3, english_status)])
      (fresh_world one_record_opts)
    = (Ok (), w') /\
    stdout w' = [raw_line (1, english_status)] /\
    running w' = false /\
    status_count w' = 2.
Proof.
  apply (@X16_count_limit_over_a_stream ref_collaborators 1
           [(1, english_status); (2, english_status); (3, english_status)]
           (fresh_world one_record_opts)
           eq_refl eq_refl ltac:(lia) eq_refl eq_refl
           ltac:(repeat (apply Forall_cons; [exact english_status_accepted|]);
                 apply Forall_nil)
           ltac:(simpl; lia)).
Defined.

(** ** Rows, lag reports and notices *)

Section StatusRecords.

Context `{Collaborators}.

Lemma build_row_columns (status : pyval) (o : Opts) (fs : list string) :
  forall (csvrow : list pyval) (w : World),
    global_opts w = Some o ->
    terminate_on_error o = false ->
    build_row status fs csvrow w = (Ok (Fall (csvrow ++ map (column status) fs)), w).
Proof.
  induction fs as [|f fs IH]; intros csvrow w Hg Ht.
  - cbn [map]. rewrite app_nil_r. reflexivity.
  - cbn [map].
    destruct (resolve_with_default status f PyNone) as [v|] eqn:Hv.
    + assert (column status f = encode_utf8 v) as ->
          by (unfold column; rewrite Hv; reflexivity).
      rewrite (build_row_resolved status f v) by exact Hv.
      rewrite IH by assumption. rewrite <- app_assoc. reflexivity.
    + assert (column status f = MISSING_FIELD_VALUE) as ->
          by (unfold column; rewrite Hv; reflexivity).
      rewrite (build_row_missing_continue status f o) by assumption.
      rewrite IH by assumption. rewrite <- app_assoc. reflexivity.
Qed.

(** X17: without terminate-on-error the output step in field mode never
    gives up on a record for its fields: whatever fields are missing, the
    row has one column per configured field, in order, each the encoded
    value or the empty string.  When the writer takes the row, that row is
    the only thing written; when the writer raises an encoding error the
    record is dropped with a warning whose text is the name of the last
    field, and the handler goes on. *)
Theorem X17_one_column_per_field
        (status : pyval) (data : string) (o : Opts) (fs : list string) (w : World) :
  fields (opts w) = Some fs ->
  fs <> [] ->
  global_opts w = Some o ->
  terminate_on_error o = false ->
  length (map (column status) fs) = length fs /\
  emit_status status data w
  = match csv_writerow (map (column status) fs) with
    | Ok _ => (Ok (Fall ()), add_stdout (CsvRow (map (column status) fs)) w)
    | Raise UnicodeEncodeError =>
        (Ok (Fall ()), add_logged (mkLog WARN (List.last fs "") []) w)
    | Raise e => (Raise e, w)
    end.
Proof.
  intros Hf Hne Hg Ht. split; [apply length_map|].
  rewrite (emit_status_fields status data fs w Hf Hne).
  rewrite (build_row_columns status o fs [] w Hg Ht). reflexivity.
Qed.

Lemma report_lag_eq (data : string) (w : World) (limit c : Z) (decoded status : pyval) :
  report_lag (opts w) = Some limit -> limit <> 0 ->
  json_loads data = Ok decoded ->
  Status_parse decoded = Ok status ->
  getattr status "created_at" = Ok (PyInt c) ->
  report_lag_check data w = (Ok (), lag_report limit (now w) c w).
Proof.
  intros Hl Hnz Hj Hp Hc.
  unfold report_lag_check, bind, gets, lift. cbv beta iota.
  rewrite Hl, (truthy_some limit Hnz), Hj, Hp, Hc.
  change (int_value (Some limit)) with limit.
  unfold lag_report, lag_seconds.
  assert (0 <= (now w - c) `mod` 86400) as Hs by (apply Z.mod_pos_bound; lia).
  rewrite (Z.abs_eq _ Hs).
  destruct ((now w - c) `mod` 86400 >? limit); reflexivity.
Qed.

(** X18: the lag report looks at every status record that decodes, also
    one the filters reject, which is neither counted nor written; the
    handler then returns nothing.  The lag it compares is the difference of
    the two times reduced to one day: it lies between 0 and 86399, so a
    record exactly a whole number of days off is never reported under a
    positive limit. *)
Theorem X18_lag_report_for_rejected_records
        (data : string) (w : World) (limit c : Z) (decoded status : pyval) :
  report_lag (opts w) = Some limit -> limit <> 0 ->
  json_loads data = Ok decoded ->
  Status_parse decoded = Ok status ->
  getattr status "created_at" = Ok (PyInt c) ->
  (tweet_matchp status w).1 = Ok false ->
  parse_status_and_dispatch data w = (Ok PyNone, lag_report limit (now w) c w) /\
  0 <= lag_seconds (now w) c < 86400 /\
  (0 < limit -> (86400 | now w - c) -> lag_report limit (now w) c w = w).
Proof.
  intros Hl Hnz Hj Hp Hc Hm. split; [|split].
  - unfold parse_status_and_dispatch, bind at 1, lift. rewrite Hj.
    unfold bind at 1. rewrite Hp. unfold bind at 1.
    pose proof (tweet_matchp_world status w) as Hw.
    destruct (tweet_matchp status w) as [r w']. simpl in Hw, Hm. subst w' r.
    unfold bind at 1, ret at 1. unfold bind at 1.
    rewrite (report_lag_eq data w limit c decoded status Hl Hnz Hj Hp Hc).
    reflexivity.
  - unfold lag_seconds. apply Z.mod_pos_bound. lia.
  - intros Hpos Hdiv. unfold lag_report, lag_seconds.
    rewrite (proj2 (Z.mod_divide (now w - c) 86400 ltac:(lia)) Hdiv).
    replace (0 >? limit) with false; [reflexivity|].
    symmetry. rewrite Z.gtb_ltb. apply Z.ltb_ge. lia.
Qed.

(** X19: with no-retweets set, a record that carries a retweeted status,
    or whose text starts with RT and a space or contains RT between
    spaces, is rejected before its author's language is looked at; a
    record with neither a retweeted status nor a text raises the
    attribute error.  Without no-retweets neither is read, and under a
    language list a record matches exactly when its author's language is
    one of the list, compared as it is written. *)
Theorem X19_retweets_rejected_before_language (tweet : pyval) (w : World) :
  (no_retweets (opts w) = true ->
   (hasattr tweet "retweeted_status" = true -> tweet_matchp tweet w = (Ok false, w)) /\
   (forall text,
      hasattr tweet "retweeted_status" = false ->
      getattr tweet "text" = Ok (PyStr text) ->
      PyStr.startswith "RT " text || PyStr.contains " RT " text = true ->
      tweet_matchp tweet w = (Ok false, w)) /\
   (hasattr tweet "retweeted_status" = false ->
    getattr tweet "text" = Raise AttributeError ->
    tweet_matchp tweet w = (Raise AttributeError, w))) /\
  (no_retweets (opts w) = false -> user_lang (opts w) <> [] ->
   forall user lang,
     getattr tweet "user" = Ok user ->
     getattr user "lang" = Ok (PyStr lang) ->
     exists b,
       tweet_matchp tweet w = (Ok b, w) /\
       (b = true <-> In lang (user_lang (opts w)))).
Proof.
  split.
  - intros Hn. repeat split.
    + intros Hh. unfold tweet_matchp, is_retweet, bind, gets, ret. cbv beta iota.
      rewrite Hn, Hh. reflexivity.
    + intros text Hh Ht Hrt.
      unfold tweet_matchp, is_retweet, bind, gets, ret, lift. cbv beta iota.
      rewrite Hn, Hh, Ht. cbv beta iota. rewrite Hrt. reflexivity.
    + intros Hh Ht.
      unfold tweet_matchp, is_retweet, bind, gets, ret, lift. cbv beta iota.
      rewrite Hn, Hh, Ht. reflexivity.
  - intros Hn Hu user lang Huser Hlang.
    exists (existsb (String.eqb lang) (user_lang (opts w))). split.
    + unfold tweet_matchp, bind, gets, ret, lift. cbv beta iota.
      rewrite Hn. cbv beta iota.
      destruct (user_lang (opts w)) as [|l ls]; [contradiction|].
      rewrite Huser, Hlang. reflexivity.
    + rewrite existsb_exists. split.
      * intros (x & Hin & Heq). apply String.eqb_eq in Heq. subst x. exact Hin.
      * intros Hin. exists lang. split; [exact Hin|apply String.eqb_refl].
Qed.

(** X20: a warning notice that decodes and carries a code and a message is
    logged once and the stream goes on.  The handler catches decode errors
    only: a notice whose warning lacks the code raises the key error, and a
    message without a warning member raises the type error of subscripting
    None. *)
Theorem X20_warning_notices (data : string) (decoded : pyval) (w : World) :
  json_loads data = Ok decoded ->
  (forall warning code message,
     dict_get decoded "warning" = Ok warning ->
     getitem warning "code" = Ok code ->
     getitem warning "message" = Ok message ->
     parse_warning_and_dispatch data w
     = (Ok PyNone, add_logged (warning_record code message) w)) /\
  (forall members,
     dict_get decoded "warning" = Ok (PyDict members) ->
     assoc "code" members = None ->
     parse_warning_and_dispatch data w = (Raise KeyError, w)) /\
  (forall members,
     decoded = PyDict members ->
     assoc "warning" members = None ->
     parse_warning_and_dispatch data w
     = (Raise (TypeError "object is not subscriptable"), w)).
Proof.
  intros Hj. repeat split.
  - intros warning code message Hw Hc Hm.
    unfold parse_warning_and_dispatch, on_warning, try_except, bind, lift, log, modify, ret.
    rewrite Hj, Hw, Hc, Hm. reflexivity.
  - intros members Hw Hc.
    unfold parse_warning_and_dispatch, on_warning, try_except, bind, lift.
    rewrite Hj, Hw. cbn [getitem]. rewrite Hc. reflexivity.
  - intros members -> Hw.
    unfold parse_warning_and_dispatch, on_warning, try_except, bind, lift.
    rewrite Hj. cbn [dict_get]. rewrite Hw. reflexivity.
Qed.

(** X21: a limit notice that decodes and carries the track count changes
    nothing: it is not logged, not counted, and the stream goes on.  A
    notice without the track member raises the key error, and a message
    whose limit member is missing raises it as well. *)
Theorem X21_limit_notices (data : string) (decoded : pyval) (w : World) :
  json_loads data = Ok decoded ->
  (forall limit track,
     getitem decoded "limit" = Ok limit ->
     getitem limit "track" = Ok track ->
     parse_limit_and_dispatch data w = (Ok PyNone, w)) /\
  (forall members,
     getitem decoded "limit" = Ok (PyDict members) ->
     assoc "track" members = None ->
     parse_limit_and_dispatch data w = (Raise KeyError, w)) /\
  (forall members,
     decoded = PyDict members ->
     assoc "limit" members = None ->
     parse_limit_and_dispatch data w = (Raise KeyError, w)).
Proof.
  intros Hj. repeat split.
  - intros limit track Hl Ht.
    unfold parse_limit_and_dispatch, on_limit, bind, lift, ret.
    rewrite Hj, Hl, Ht. reflexivity.
  - intros members Hl Ht.
    unfold parse_limit_and_dispatch, bind, lift.
    rewrite Hj, Hl. cbn [getitem]. rewrite Ht. reflexivity.
  - intros members -> Hl.
    unfold parse_limit_and_dispatch, bind, lift.
    rewrite Hj. cbn [getitem]. rewrite Hl. reflexivity.
Qed.

End StatusRecords.

Lemma X17_row_with_missing_location :
  emit_status english_status_object english_status (fresh_world (three_field_opts false))
  = (Ok (Fall ()),
     add_stdout (CsvRow [PyStr "8"; PyStr ""; PyStr "hello"])
       (fresh_world (three_field_opts false))).
Proof.
  exact (proj2 (@X17_one_column_per_field ref_collaborators
                  english_status_object english_status (three_field_opts false)
                  three_fields (fresh_world (three_field_opts false))
                  eq_refl ltac:(discriminate) eq_refl eq_refl)).
Defined.

Lemma X18_three_days_late_not_reported :
  parse_status_and_dispatch dated_french_status three_days_later
  = (Ok PyNone, three_days_later).
Proof.
  destruct (@X18_lag_report_for_rejected_records ref_collaborators
              dated_french_status three_days_later 10 100 _ _
              eq_refl ltac:(lia) eq_refl eq_refl eq_refl eq_refl)
    as (Hrun & _ & Hsame).
  rewrite Hrun, Hsame; [reflexivity|lia|exists 3; reflexivity].
Defined.

Lemma X19_text_retweet_rejected :
  tweet_matchp retweet_object (fresh_world no_retweet_opts)
  = (Ok false, fresh_world no_retweet_opts).
Proof.
  apply (proj1 (proj2 (proj1 (X19_retweets_rejected_before_language
                                retweet_object (fresh_world no_retweet_opts))
                         eq_refl))
           "RT @a: hello" eq_refl eq_refl eq_refl).
Defined.

Lemma X20_falling_behind_logged :
  parse_warning_and_dispatch warning_notice (fresh_world default_opts)
  = (Ok PyNone,
     add_logged (warning_record (PyStr "FALLING_BEHIND") (PyStr "slow"))
       (fresh_world default_opts)).
Proof.
  apply (proj1 (@X20_warning_notices ref_collaborators warning_notice _
                  (fresh_world default_opts) eq_refl)
           _ _ _ eq_refl eq_refl eq_refl).
Defined.

Lemma X21_limit_notice_ignored :
  parse_limit_and_dispatch limit_notice (fresh_world default_opts)
  = (Ok PyNone, fresh_world default_opts).
Proof.
  apply (proj1 (@X21_limit_notices ref_collaborators limit_notice _
                  (fresh_world default_opts) eq_refl)
           _ _ eq_refl eq_refl).
Defined.

(** ** Location queries and start-up *)

Section LocationQueries.

Variable geo_search : string -> res (list Place).
Variable float : string -> res Q.

Lemma first_matching_place_first (q : string) (p : Place) (post : list Place) :
  forall (pre : list Place) (w : World),
    Forall (fun x => place_matches q x = false) pre ->
    place_matches q p = true ->
    (first_matching_place q (PyStr.remove_char " " q) (pre ++ p :: post) w).1
    = match bounding_box p with
      | Some (origin, corner) => Ok (origin ++ corner)
      | None => Raise (ValueError (no_bounding_box_message (full_name p)))
      end.
Proof.
  induction pre as [|x pre IH]; intros w Hpre Hp.
  - cbn [app first_matching_place]. unfold bind at 1, log at 1, modify at 1.
    unfold place_matches in Hp. rewrite Hp.
    unfold bind, log, modify, ret, raise.
    destruct (bounding_box p) as [[origin corner]|]; reflexivity.
  - inversion Hpre as [|? ? Hx Hpre']; subst.
    cbn [app first_matching_place]. unfold bind at 1, log at 1, modify at 1.
    unfold place_matches in Hx. rewrite Hx. apply IH; assumption.
Qed.

Lemma first_matching_place_none (q : string) :
  forall (places : list Place) (w : World),
    Forall (fun x => place_matches q x = false) places ->
    (first_matching_place q (PyStr.remove_char " " q) places w).1
    = Raise (ValueError (no_such_place_message q)).
Proof.
  induction places as [|x places IH]; intros w Hall; [reflexivity|].
  inversion Hall as [|? ? Hx Hall']; subst.
  cbn [first_matching_place]. unfold bind at 1, log at 1, modify at 1.
  unfold place_matches in Hx. rewrite Hx. apply IH; assumption.
Qed.

Lemma lookup_by_lowered_name (fuel : nat) (q : string) :
  lookup_location_query_macro fuel q = lookup_location_query_macro fuel (PyStr.lower q).
Proof. unfold lookup_location_query_macro. symmetry. apply lookup_macro_lower, lower_idem. Qed.

(** X22: a location query that names a macro of the table, in any case of
    letters, is answered from the table: the geo search is not called, so
    its failures cannot matter, nothing is logged, and the box has four
    coordinates. *)
Theorem X22_macro_query_skips_search (q : string) (n : nat) (w : World) :
  In (PyStr.lower q) macro_names ->
  exists box,
    length box = 4%nat /\
    lookup_location_query_macro (2 + n) q = Returned (Some box) /\
    location_query_to_location_filter geo_search (2 + n) q w = (Ok (Done box), w).
Proof.
  intros Hin.
  destruct (macro_table_cases (PyStr.lower q)) as [[_ Hno]|[_ (box & Hlen & Hbox)]];
    [contradiction|].
  exists box. split; [exact Hlen|].
  assert (lookup_location_query_macro (2 + n) q = Returned (Some box)) as Hq
      by (rewrite lookup_by_lowered_name; apply Hbox).
  split; [exact Hq|].
  unfold location_query_to_location_filter. rewrite Hq.
  destruct box as [|c cs]; [discriminate Hlen|reflexivity].
Qed.

(** X23: for a query that names no macro, the places of the geo search are
    gone through in order and the first whose name equals the query, spaces
    and case of letters aside, decides alone: its box is the answer, origin
    before corner, and when it has no box the value error is raised even
    if a later place of the same name has one.  When no place matches, also
    when none is found, the value error names the query. *)
Theorem X23_first_matching_place_decides
        (q : string) (n : nat) (w : World) (places : list Place) :
  ~ In (PyStr.lower q) macro_names ->
  geo_search q = Ok places ->
  (forall pre p post,
     places = pre ++ p :: post ->
     Forall (fun x => place_matches q x = false) pre ->
     place_matches q p = true ->
     (location_query_to_location_filter geo_search (1 + n) q w).1
     = match bounding_box p with
       | Some (origin, corner) => Ok (Done (origin ++ corner))
       | None => Raise (ValueError (no_bounding_box_message (full_name p)))
       end) /\
  (Forall (fun x => place_matches q x = false) places ->
   (location_query_to_location_filter geo_search (1 + n) q w).1
   = Raise (ValueError (no_such_place_message q))).
Proof.
  intros Hno Hgeo.
  assert (lookup_location_query_macro (1 + n) q = Returned None) as Hq.
  { rewrite lookup_by_lowered_name.
    destruct (macro_table_cases (PyStr.lower q)) as [[Hnone _]|[Hin _]];
      [|contradiction].
    unfold lookup_location_query_macro. cbn [Nat.add lookup_macro_in].
    rewrite lower_idem, Hnone. reflexivity. }
  split.
  - intros pre p post -> Hpre Hp.
    pose proof (first_matching_place_first q p post pre w Hpre Hp) as Hfirst.
    unfold location_query_to_location_filter. rewrite Hq.
    unfold bind at 1, lift. rewrite Hgeo. unfold bind.
    destruct (bounding_box p) as [[origin corner]|];
      destruct (first_matching_place q _ (pre ++ p :: post) w) as [[t|e] w'];
      cbn [fst] in Hfirst; try discriminate Hfirst;
      inversion Hfirst; subst; reflexivity.
  - intros Hall.
    pose proof (first_matching_place_none q places w Hall) as Hnone.
    unfold location_query_to_location_filter. rewrite Hq.
    unfold bind at 1, lift. rewrite Hgeo. unfold bind.
    destruct (first_matching_place q _ places w) as [[t|e] w'];
      cbn [fst] in Hnone; try discriminate Hnone;
      inversion Hnone; subst; reflexivity.
Qed.

(** X24: when both locations and a location query are given, the
    locations are converted first and then replaced: a location that is not
    a number raises before the query is looked at, and otherwise the
    [locations] argument is the box of the query, not the numbers given. *)
Theorem X24_location_query_replaces_locations
        (fuel : nat) (fo : FilterOpts) (w : World) (ls : list string) (q : string) :
  locations fo = Some ls -> ls <> [] ->
  location_query fo = Some q -> q <> "" ->
  (forall e, map_float float ls = Raise e ->
     make_filter_args geo_search float fuel fo w = (Raise e, w)) /\
  (forall qs box w',
     map_float float ls = Ok qs ->
     location_query_to_location_filter geo_search fuel q w = (Ok (Done box), w') ->
     exists kw,
       make_filter_args geo_search float fuel fo w = (Ok (Done kw), w') /\
       kw_locations kw = Some box).
Proof.
  intros Hl Hne Hq Hqne.
  destruct ls as [|l ls]; [contradiction|].
  destruct q as [|c q]; [contradiction|].
  split.
  - intros e He. unfold make_filter_args. rewrite Hl.
    unfold bind, lift. rewrite He. reflexivity.
  - intros qs box w' Hm Hbox. unfold make_filter_args. rewrite Hl, Hq.
    unfold bind at 1. unfold bind at 1, lift. rewrite Hm. unfold ret at 1.
    unfold bind. rewrite Hbox. eexists. split; reflexivity.
Qed.

(** X25: the start-up check and the filter arguments do not ask the same
    question.  Options that pass the check and give filter arguments with
    neither a track list nor locations have an empty location query or an
    empty locations list; and an empty location query with no track words
    and no locations does pass the check and gives such arguments, so the
    stream is called with nothing to filter on. *)
Theorem X25_startup_check_and_filter_arguments (fuel : nat) (fo : FilterOpts) (w : World) :
  (forall kw w',
     main_exits_without_track fo = false ->
     make_filter_args geo_search float fuel fo w = (Ok (Done kw), w') ->
     kw_track kw = None ->
     kw_locations kw = None ->
     location_query fo = Some "" \/ locations fo = Some []) /\
  (track fo = [] -> locations fo = None -> location_query fo = Some "" ->
   main_exits_without_track fo = false /\
   make_filter_args geo_search float fuel fo w
   = (Ok (Done (mkKwargs None (if stall_warnings fo then Some true else None) None)), w)).
Proof.
  split.
  - unfold main_exits_without_track, make_filter_args.
    intros kw w' Hguard Hmake Ht Hl.
    destruct (location_query fo) as [[|c q]|] eqn:Hq.
    + left. reflexivity.
    + exfalso. revert Hmake. unfold bind at 1.
      match goal with
      | |- (let (_, _) := ?m in _) = _ -> _ => destruct m as [[kl|e] w1]
      end; [|discriminate].
      unfold bind.
      destruct (location_query_to_location_filter geo_search fuel (String c q) w1)
        as [[[box|]|e] w2]; try discriminate.
      unfold ret. intros Heq. inversion Heq; subst. discriminate Hl.
    + destruct (locations fo) as [[|l ls]|] eqn:Hloc.
      * right. reflexivity.
      * exfalso. revert Hmake. unfold bind, lift, ret.
        destruct (map_float float (l :: ls)) as [qs|e]; [|discriminate].
        intros Heq. inversion Heq; subst. discriminate Hl.
      * exfalso. revert Hmake. unfold bind, ret. intros Heq. inversion Heq; subst.
        cbn [kw_track] in Ht. destruct (track fo); discriminate.
  - intros Ht Hl Hq. unfold main_exits_without_track, make_filter_args.
    rewrite Ht, Hl, Hq. split; reflexivity.
Qed.

End LocationQueries.

Lemma X22_upper_case_macro :
  exists box,
    length box = 4%nat /\
    lookup_location_query_macro 2 "USA" = Returned (Some box) /\
    location_query_to_location_filter (fun _ => Raise IOError) 2 "USA"
      (fresh_world default_opts)
    = (Ok (Done box), fresh_world default_opts).
Proof.
  apply (X22_macro_query_skips_search (fun _ => Raise IOError) "USA" 0
           (fresh_world default_opts)).
  simpl. auto.
Defined.

Lemma X23_place_without_box_hides_later_one :
  (location_query_to_location_filter springfield_search 1 "springfield"
     (fresh_world default_opts)).1
  = Raise (ValueError (no_bounding_box_message "Spring Field")).
Proof.
  apply (proj1 (X23_first_matching_place_decides springfield_search "springfield" 0
                  (fresh_world default_opts) two_springfields
                  ltac:(simpl; intros [?|[?|[?|[?|[?|[]]]]]]; discriminate) eq_refl)
           [] (mkPlace "Spring Field" None)
           [mkPlace "Springfield" (Some ([(-90)%Q; 39%Q], [(-89)%Q; 40%Q]))]
           eq_refl ltac:(constructor) eq_refl).
Defined.

Lemma X24_bad_location_raises_before_query :
  make_filter_args springfield_search no_float 2
    (mkFilterOpts [] false (Some ["a"; "b"; "c"; "d"]) (Some "usa"))
    (fresh_world default_opts)
  = (Raise (ValueError "could not convert string to float: a"), fresh_world default_opts).
Proof.
  apply (proj1 (X24_location_query_replaces_locations springfield_search no_float 2
                  (mkFilterOpts [] false (Some ["a"; "b"; "c"; "d"]) (Some "usa"))
                  (fresh_world default_opts) ["a"; "b"; "c"; "d"] "usa"
                  eq_refl ltac:(discriminate) eq_refl ltac:(discriminate))).
  reflexivity.
Defined.

Lemma X25_empty_query_gives_no_filter :
  main_exits_without_track empty_query = false /\
  make_filter_args springfield_search no_float 1 empty_query (fresh_world default_opts)
  = (Ok (Done (mkKwargs None None None)), fresh_world default_opts).
Proof.
  apply (proj2 (X25_startup_check_and_filter_arguments springfield_search no_float 1
                  empty_query (fresh_world default_opts))
           eq_refl eq_refl eq_refl).
Defined.

(** ** Start-up of [process_tweets] *)

Section StartUp.

Context `{Collaborators}.

Variable geo_search : string -> res (list Place).
Variable float : string -> res Q.

Lemma log_all_frame (ls : list logrec) :
  forall w : World,
    running (log_all ls w) = running w /\
    stdout (log_all ls w) = stdout w /\
    slept (log_all ls w) = slept w /\
    calls (log_all ls w) = calls w.
Proof.
  induction ls as [|l ls IH]; intros w; [repeat split|].
  unfold log_all. cbn [fold_left]. apply (IH (add_logged l w)).
Qed.

Lemma first_matching_place_logs (q nq : string) (places : list Place) :
  exists r ls, forall w, first_matching_place q nq places w = (r, log_all ls w).
Proof.
  induction places as [|p places IH].
  - exists (Raise (ValueError (no_such_place_message q))), []. reflexivity.
  - cbn [first_matching_place]. unfold bind, log, modify, ret, raise.
    destruct (String.eqb _ _).
    + destruct (bounding_box p) as [[origin corner]|].
      * eexists (Ok _), [_; _; _]. reflexivity.
      * eexists (Raise _), [_; _]. reflexivity.
    + destruct IH as (r & ls & Hr). exists r. eexists (_ :: ls).
      intros w. rewrite Hr. destruct r; reflexivity.
Qed.

Lemma make_filter_args_logs (fuel : nat) (fo : FilterOpts) :
  exists r ls, forall w, make_filter_args geo_search float fuel fo w = (r, log_all ls w).
Proof.
  assert (forall q, exists r ls,
            forall w, location_query_to_location_filter geo_search fuel q w
                      = (r, log_all ls w)) as Hquery.
  { intros q. unfold location_query_to_location_filter.
    destruct (lookup_location_query_macro fuel q) as [[[|c cs]|]|];
      try (eexists _, []; reflexivity);
      (unfold bind, lift, ret; destruct (geo_search q) as [places|e];
       [|eexists _, []; reflexivity];
       destruct (first_matching_place_logs q (PyStr.remove_char " " q) places)
         as (r & ls & Hr);
       destruct r as [t|e];
       [exists (Ok (Done t)), ls|exists (Raise e), ls]; intros w; rewrite Hr; reflexivity). }
  unfold make_filter_args.
  destruct (locations fo) as [[|l ls]|];
    try (destruct (location_query fo) as [[|c q]|];
         try (eexists _, []; reflexivity);
         destruct (Hquery (String c q)) as (r & logs & Hr);
         destruct r as [[box|]|e];
         eexists _, logs; intros w; unfold bind, ret; rewrite Hr; reflexivity).
  unfold bind at 1. unfold bind at 1, lift, ret at 1.
  destruct (map_float float (l :: ls)) as [qs|e]; [|eexists _, []; reflexivity].
  destruct (location_query fo) as [[|c q]|];
    try (eexists _, []; reflexivity).
  destruct (Hquery (String c q)) as (r & logs & Hr).
  destruct r as [[box|]|e];
    eexists _, logs; intros w; unfold bind, ret; rewrite Hr; reflexivity.
Qed.

(** X26: when building the filter arguments raises, the stream is never
    called, whatever it would have delivered: nothing is written, no
    recognizer is asked and nothing sleeps.  A value error, as of a
    location that is not a number or of a place not found, or an exception
    of a subclass of it, as an encoding or a decoding error, is caught: the
    listener is stopped and the exception is the result.  Any other
    exception, as an input/output error of the geo search, is not caught
    and leaves [process_tweets] with the listener still marked running. *)
Theorem X26_filter_argument_errors_at_startup
        (fuel : nat) (o : Opts) (fo : FilterOpts)
        (attempts : list (list transport_event)) (w : World) (e : exn) :
  (make_filter_args geo_search float fuel fo w).1 = Raise e ->
  exists w',
    process_tweets geo_search float fuel o fo attempts w
    = (if is_ValueError e then Ok (StartupError e) else Raise e, w') /\
    running w' = negb (is_ValueError e) /\
    stdout w' = stdout w /\
    slept w' = slept w /\
    calls w' = calls w.
Proof.
  intros Hraise.
  destruct (make_filter_args_logs fuel fo) as (r & ls & Hr).
  rewrite Hr in Hraise. cbn [fst] in Hraise. subst r.
  unfold process_tweets, log.
  unfold bind at 1, modify at 1. unfold bind at 1, modify at 1.
  unfold bind at 1, modify at 1. unfold bind at 1, try_except, bind at 1.
  rewrite Hr.
  match goal with
  | |- context [log_all ls ?W] =>
      destruct (log_all_frame ls W) as (Lr & Lo & Ls & Lc)
  end.
  destruct (is_ValueError e); (eexists; split; [reflexivity|]);
    cbn [running stdout slept calls set_running negb];
    rewrite ?Lr, ?Lo, ?Ls, ?Lc; repeat split.
Qed.

End StartUp.

Lemma X26_bad_location_stops_before_the_stream :
  (process_tweets springfield_search no_float 2 default_opts bad_locations
     [[Message 1 english_status]] (fresh_world default_opts)).1
  = Ok (StartupError (ValueError "could not convert string to float: a")).
Proof.
  destruct (@X26_filter_argument_errors_at_startup ref_collaborators
              springfield_search no_float 2 default_opts bad_locations
              [[Message 1 english_status]] (fresh_world default_opts)
              (ValueError "could not convert string to float: a") eq_refl)
    as (w' & Hrun & _).
  rewrite Hrun. reflexivity.
Defined.
